(** * pts.collector.DataCollector: the URL recognizer and the dependency gate

    A shallow embedding of the three class methods of [DataCollector] that
    carry a contract of their own:

    - [parse_github_url] with the compiled pattern [RE_GITHUB_URL],
    - [parse_repo_name],
    - [check_junit] with the predicate table [REQUIREMENTS].

    Python values are modelled as follows.  A [str] is a [string], its
    characters the code points below 256; the characters the code tells apart
    (slash, dot, underscore, line feed, the digits) are all ASCII.  An
    exception is a value of [exn], and a call that may raise returns a
    [result].  Python's [None] in a place where a string or a tuple may stand
    is [None] of [option].  The file system and the XML parser are a
    parameter of [check_junit]; the regular expression engine, [str.split]
    and [int] are modelled as far as the code uses them. *)

From Stdlib Require Import String Ascii List Bool Arith ZArith Lia.
Import ListNotations.
Local Open Scope string_scope.

Set Implicit Arguments.

(** ** Exceptions and results *)

Inductive exn : Type :=
| ParseError       (* xml.etree.ElementTree.ParseError, or the file is unreadable *)
| AttributeError   (* an attribute of None was read *)
| ValueError       (* int() refused its argument *)
| IndexError.      (* a list index out of range *)

Inductive result (A : Type) : Type :=
| Ok (a : A)
| Raise (e : exn).

Arguments Ok {A} a.
Arguments Raise {A} e.

Definition bind {A B : Type} (r : result A) (f : A -> result B) : result B :=
  match r with
  | Ok a => f a
  | Raise e => Raise e
  end.

Notation "x <- c ;; k" := (bind c (fun x => k))
  (at level 61, c at next level, right associativity).

(** ** Strings *)

Module Str.

(** Characters of [s] all satisfy [p]. *)
Fixpoint all (p : ascii -> bool) (s : string) : bool :=
  match s with
  | EmptyString => true
  | String c s' => p c && all p s'
  end.

(** [c] does not occur in [s]. *)
Definition free_of (c : ascii) (s : string) : bool :=
  all (fun x => negb (Ascii.eqb x c)) s.

(** [strip_prefix p s] is the rest of [s] behind [p], when [s] starts with [p]. *)
Fixpoint strip_prefix (p s : string) : option string :=
  match p, s with
  | EmptyString, _ => Some s
  | String a p', String b s' => if Ascii.eqb a b then strip_prefix p' s' else None
  | String _ _, EmptyString => None
  end.

(** [take n s]: the first [n] characters, the slice [s[:n]]. *)
Fixpoint take (n : nat) (s : string) : string :=
  match n, s with
  | O, _ => EmptyString
  | S n', String c s' => String c (take n' s')
  | S _, EmptyString => EmptyString
  end.

(** [str.split(sep)] for a separator of one character: the pieces of [s]
    between the occurrences of [sep]; never the empty list. *)
Fixpoint split (sep : ascii) (s : string) : list string :=
  match s with
  | EmptyString => [EmptyString]
  | String c s' =>
      if Ascii.eqb c sep then EmptyString :: split sep s'
      else match split sep s' with
           | piece :: pieces => String c piece :: pieces
           | [] => [String c EmptyString]
           end
  end.

(** List indexing [l[i]] for [i >= 0]. *)
Definition index {A : Type} (l : list A) (i : nat) : result A :=
  match nth_error l i with
  | Some x => Ok x
  | None => Raise IndexError
  end.

End Str.

(** ** A backtracking matcher for the fragment of [re] the pattern uses

    The pattern is built from literal text, the two one-character sets ["."]
    and ["[^c]"], the greedy ["+"], the lazy ["+?"], the greedy ["?"],
    capturing groups and concatenation.  The matcher tries the alternatives in
    the order of Python's engine (greedy: longest first; lazy: shortest first;
    optional: present first) and hands the rest of the subject to a
    continuation, so that a later failure backtracks into the earlier choice. *)

Module Re.

Inductive charset : Type :=
| Dot                     (* "."    : any character but line feed *)
| NotChar (c : ascii).    (* "[^c]" : any character but c *)

Definition LF : ascii := "010"%char.

Definition in_charset (cs : charset) (c : ascii) : bool :=
  match cs with
  | Dot => negb (Ascii.eqb c LF)
  | NotChar x => negb (Ascii.eqb c x)
  end.

Inductive regex : Type :=
| Lit (s : string)              (* literal text *)
| Plus (cs : charset)           (* cs+   *)
| PlusLazy (cs : charset)       (* cs+?  *)
| Opt (r : regex)               (* r?    *)
| Group (n : nat) (r : regex)   (* (r), the n-th capturing group *)
| Cat (r1 r2 : regex).          (* r1 r2 *)

(** The text captured by each group that took part in the match. *)
Definition captures : Type := list (nat * string).

Definition cont : Type := string -> captures -> option captures.

Fixpoint lookup (n : nat) (env : captures) : option string :=
  match env with
  | [] => None
  | (m, s) :: env' => if Nat.eqb n m then Some s else lookup n env'
  end.

(** The part of [s] in front of its suffix [rest]. *)
Definition consumed (s rest : string) : string :=
  Str.take (String.length s - String.length rest) s.

Fixpoint plus_greedy (cs : charset) (s : string) (k : string -> option captures)
  : option captures :=
  match s with
  | EmptyString => None
  | String c s' =>
      if in_charset cs c then
        match plus_greedy cs s' k with
        | Some m => Some m
        | None => k s'
        end
      else None
  end.

Fixpoint plus_lazy (cs : charset) (s : string) (k : string -> option captures)
  : option captures :=
  match s with
  | EmptyString => None
  | String c s' =>
      if in_charset cs c then
        match k s' with
        | Some m => Some m
        | None => plus_lazy cs s' k
        end
      else None
  end.

Fixpoint matchk (r : regex) (s : string) (env : captures) (k : cont)
  : option captures :=
  match r with
  | Lit p =>
      match Str.strip_prefix p s with
      | Some rest => k rest env
      | None => None
      end
  | Plus cs => plus_greedy cs s (fun rest => k rest env)
  | PlusLazy cs => plus_lazy cs s (fun rest => k rest env)
  | Opt r1 =>
      match matchk r1 s env k with
      | Some m => Some m
      | None => k s env
      end
  | Group n r1 =>
      matchk r1 s env (fun rest env' => k rest ((n, consumed s rest) :: env'))
  | Cat r1 r2 =>
      matchk r1 s env (fun rest env' => matchk r2 rest env' k)
  end.

(** A compiled pattern: the expression and the names of its groups. *)
Record pattern : Type := Pattern {
  expr : regex;
  groupindex : list (string * nat)
}.

(** [Pattern.fullmatch]: the whole subject has to be used up. *)
Definition at_end : cont :=
  fun rest env => match rest with EmptyString => Some env | String _ _ => None end.

Definition fullmatch (p : pattern) (s : string) : option captures :=
  matchk (expr p) s [] at_end.

Fixpoint index_of (name : string) (gi : list (string * nat)) : option nat :=
  match gi with
  | [] => None
  | (x, n) :: gi' => if String.eqb name x then Some n else index_of name gi'
  end.

(** [Match.group(name)]: the text of the group, [None] when the group took
    no part in the match (or, here, when the pattern has no such name). *)
Definition group (p : pattern) (m : captures) (name : string) : option string :=
  match index_of name (groupindex p) with
  | Some n => lookup n m
  | None => None
  end.

(** The language of an expression, with no reference to the order of the
    search: what it means for a string to match the pattern. *)
Inductive matches : regex -> string -> Prop :=
| M_Lit : forall p, matches (Lit p) p
| M_Plus_one : forall cs c,
    in_charset cs c = true -> matches (Plus cs) (String c EmptyString)
| M_Plus_more : forall cs c s,
    in_charset cs c = true -> matches (Plus cs) s -> matches (Plus cs) (String c s)
| M_PlusLazy_one : forall cs c,
    in_charset cs c = true -> matches (PlusLazy cs) (String c EmptyString)
| M_PlusLazy_more : forall cs c s,
    in_charset cs c = true -> matches (PlusLazy cs) s ->
    matches (PlusLazy cs) (String c s)
| M_Opt_absent : forall r, matches (Opt r) EmptyString
| M_Opt_present : forall r s, matches r s -> matches (Opt r) s
| M_Group : forall n r s, matches r s -> matches (Group n r) s
| M_Cat : forall r1 r2 s1 s2,
    matches r1 s1 -> matches r2 s2 -> matches (Cat r1 r2) (s1 ++ s2).

(** Whether a search came back with a match. *)
Definition found (o : option captures) : bool :=
  match o with Some _ => true | None => false end.

(** A continuation whose success does not hang on the captures so far. *)
Definition uniform (k : cont) : Prop :=
  forall rest e1 e2, found (k rest e1) = found (k rest e2).

End Re.

(** ** The class and its methods *)

(** [RE_GITHUB_URL = re.compile(r"https://github\.com/(?P<user>[^/]+)/(?P<repo>.+?)(\.git)?")] *)
Definition RE_GITHUB_URL : Re.pattern :=
  Re.Pattern
    (Re.Cat (Re.Lit "https://github.com/")
      (Re.Cat (Re.Group 1 (Re.Plus (Re.NotChar "/")))
        (Re.Cat (Re.Lit "/")
          (Re.Cat (Re.Group 2 (Re.PlusLazy Re.Dot))
            (Re.Opt (Re.Group 3 (Re.Lit ".git")))))))
    [("user", 1); ("repo", 2)].

(** [parse_github_url(cls, github_url)]: [None] when the pattern does not
    match, else the pair of the groups [user] and [repo]. *)
Definition parse_github_url (github_url : string)
  : option (option string * option string) :=
  match Re.fullmatch RE_GITHUB_URL github_url with
  | None => None
  | Some m => Some (Re.group RE_GITHUB_URL m "user", Re.group RE_GITHUB_URL m "repo")
  end.

(** [parse_repo_name(cls, project_name)] *)
Definition parse_repo_name (project_name : string) : result string :=
  github_user_name <- Str.index (Str.split "_" project_name) 0 ;;
  github_project_name <- Str.index (Str.split "_" project_name) 1 ;;
  Ok ("https://github.com/" ++ github_user_name ++ "/" ++ github_project_name ++ ".git").

(** ** The built-in [int] on strings

    [int(s)] in base 10: white space around the number is dropped (tab to
    carriage return, space, and the two white space characters above 127,
    next line and no-break space), one sign may stand in front, the digits
    may be separated by single underscores, and anything else is refused with
    [ValueError].  A number of more than [max_str_digits] digits is refused
    as well (the interpreter's default limit on integer string conversion). *)

Module Int.

Definition is_space (c : ascii) : bool :=
  let n := nat_of_ascii c in
  (((9 <=? n) && (n <=? 13)) || (n =? 32) || (n =? 133) || (n =? 160))%nat.

Definition digit_val (c : ascii) : option Z :=
  let n := nat_of_ascii c in
  if ((48 <=? n) && (n <=? 57))%nat then Some (Z.of_nat (n - 48)) else None.

Fixpoint lstrip (s : string) : string :=
  match s with
  | EmptyString => EmptyString
  | String c s' => if is_space c then lstrip s' else s
  end.

(** The run of digits at the front of [s], an underscore allowed between two
    digits: the value so far, the number of digits so far, and what is left. *)
Fixpoint digits (s : string) (acc : Z) (n : nat) : Z * nat * string :=
  match s with
  | EmptyString => (acc, n, s)
  | String c s' =>
      match digit_val c with
      | Some d => digits s' (10 * acc + d)%Z (S n)
      | None =>
          if Ascii.eqb c "_" then
            match s' with
            | EmptyString => (acc, n, s)
            | String c' s'' =>
                match digit_val c' with
                | Some d => digits s'' (10 * acc + d)%Z (S n)
                | None => (acc, n, s)
                end
            end
          else (acc, n, s)
      end
  end.

Definition max_str_digits : nat := 4300.

Definition sign (s : string) : bool * string :=
  match s with
  | String c s' =>
      if Ascii.eqb c "+" then (false, s')
      else if Ascii.eqb c "-" then (true, s')
      else (false, s)
  | EmptyString => (false, s)
  end.

Definition int (s : string) : result Z :=
  let (negative, body) := sign (lstrip s) in
  match body with
  | EmptyString => Raise ValueError
  | String c _ =>
      match digit_val c with
      | None => Raise ValueError
      | Some _ =>
          let '(v, n, rest) := digits body 0%Z 0 in
          match lstrip rest with
          | EmptyString =>
              if (n <=? max_str_digits)%nat
              then Ok (if negative then (- v)%Z else v)
              else Raise ValueError
          | String _ _ => Raise ValueError
          end
      end
  end.

End Int.

(** ** Element trees

    What [xml.etree.ElementTree] hands to the code: an element has a tag (with
    its name space in braces in front), a text that may be [None], and its
    children in document order.  Attributes and tails are never read. *)

Module ElementTree.

#[local] Unset Elimination Schemes.
Inductive Element : Type :=
| Elem (tag : string) (text : option string) (children : list Element).
#[local] Set Elimination Schemes.

Definition tag (e : Element) : string := let 'Elem t _ _ := e in t.
Definition text (e : Element) : option string := let 'Elem _ x _ := e in x.
Definition children (e : Element) : list Element := let 'Elem _ _ cs := e in cs.

(** [Element.iter()]: the element and all below it, in document order. *)
Fixpoint iter (e : Element) : list Element :=
  match e with
  | Elem _ _ cs => e :: flat_map iter cs
  end.

(** The path [".//t"]: every element below [e] (not [e] itself) tagged [t]. *)
Definition findall (e : Element) (t : string) : list Element :=
  filter (fun x => String.eqb (tag x) t) (flat_map iter (children e)).

(** The path ["t"]: the first child of [e] tagged [t], or [None]. *)
Definition find (e : Element) (t : string) : option Element :=
  List.find (fun x => String.eqb (tag x) t) (children e).

(** Reading [.text] of what [find] gave back. *)
Definition text_of (o : option Element) : result (option string) :=
  match o with
  | Some e => Ok (text e)
  | None => Raise AttributeError
  end.

End ElementTree.

Import ElementTree.

(** [namespaces = {'xmlns': 'http://maven.apache.org/POM/4.0.0'}]: the tag
    that the path ["xmlns:name"] stands for. *)
Definition xmlns (name : string) : string :=
  "{http://maven.apache.org/POM/4.0.0}" ++ name.

(** A predicate of the table takes the major-version token and may raise. *)
Definition predicate : Type := string -> result bool.

(** What [check_junit] reads of [cls]. *)
Record DataCollectorClass : Type := Class {
  REQUIREMENTS : list (string * predicate)
}.

(** [cls.REQUIREMENTS[key]], for a key that may be [None]; [None] when the
    key is not in [cls.REQUIREMENTS.keys()]. *)
Fixpoint dict_get (d : list (string * predicate)) (key : string) : option predicate :=
  match d with
  | [] => None
  | (k, p) :: d' => if String.eqb key k then Some p else dict_get d' key
  end.

Definition requirement (cls : DataCollectorClass) (key : option string)
  : option predicate :=
  match key with
  | Some a => dict_get (REQUIREMENTS cls) a
  | None => None
  end.

(** [lambda v: int(v) == 4] *)
Definition junit_requirement : predicate :=
  fun v => n <- Int.int v ;; Ok (Z.eqb n 4).

(** [REQUIREMENTS = {"junit": lambda v: int(v) == 4}] *)
Definition DataCollector : DataCollectorClass :=
  Class [("junit", junit_requirement)].

(** [.split(".")[0]] of a text that may be [None]. *)
Definition major_version (version_text : option string) : result string :=
  match version_text with
  | Some t => Str.index (Str.split "." t) 0
  | None => Raise AttributeError
  end.

(** The loop [for d in deps] of [check_junit], with the [return False] behind it. *)
Fixpoint for_d_in (cls : DataCollectorClass) (deps : list Element) : result bool :=
  match deps with
  | [] => Ok false
  | d :: deps' =>
      artifact_id <- text_of (find d (xmlns "artifactId")) ;;
      match requirement cls artifact_id with
      | Some p =>
          version_text <- text_of (find d (xmlns "version")) ;;
          version <- major_version version_text ;;
          holds <- p version ;;
          if holds then Ok true else Ok false
      | None => for_d_in cls deps'
      end
  end.

Section CheckJunit.

(** [ElementTree.parse(pom_file)] followed by [getroot()]: the file system and
    the XML parser, outside the program. *)
Variable ElementTree_parse : string -> result Element.

(** [check_junit(cls, pom_file)] *)
Definition check_junit (cls : DataCollectorClass) (pom_file : string) : result bool :=
  root <- ElementTree_parse pom_file ;;
  for_d_in cls (findall root (xmlns "dependency")).

End CheckJunit.

(** [collect_projects] names a project after the parsed pair:
    [project_name = f"{user_repo[0]}_{user_repo[1]}"]. *)
Definition project_name (owner repo : string) : string := owner ++ "_" ++ repo.

(** ** Notions the properties are stated with *)

(** The end of the pattern, [(\.git)?] and the end of the subject. *)
Definition suffix_k (env : Re.captures) (x : string) : option Re.captures :=
  Re.matchk (Re.Opt (Re.Group 3 (Re.Lit ".git"))) x env Re.at_end.

(** The strings of the language of the pattern, spelled out: the host, a
    user without slash, a slash, a repo on one line, and ".git" or nothing. *)
Definition url_shape (s u r g : string) : Prop :=
  s = "https://github.com/" ++ u ++ "/" ++ r ++ g /\
  u <> "" /\ Str.free_of "/" u = true /\
  r <> "" /\ Str.free_of Re.LF r = true /\
  (g = "" \/ g = ".git").

(** A project name is turned into a URL and the URL parsed again. *)
Definition roundtrip (owner repo : string)
  : result (option (option string * option string)) :=
  url <- parse_repo_name (project_name owner repo) ;;
  Ok (parse_github_url url).

(** [t] is the part of [v] in front of its first dot (all of [v] when it
    has none). *)
Definition before_first_dot (v t : string) : Prop :=
  Str.free_of "." t = true /\ (v = t \/ exists rest, v = t ++ "." ++ rest).

(** [t] is text that [int] reads as a number. *)
Definition decimal_literal (t : string) : Prop := exists z, Int.int t = Ok z.

(** The characters a decimal literal is made of. *)
Definition numeric_char (c : ascii) : bool :=
  match Int.digit_val c with
  | Some _ => true
  | None => Int.is_space c || Ascii.eqb c "_" || Ascii.eqb c "+" || Ascii.eqb c "-"
  end.

(** The loop walks past [d]: it has an artifactId child, and the text of the
    first such child is no key of the table. *)
Definition passed_over (cls : DataCollectorClass) (d : Element) : Prop :=
  exists art, find d (xmlns "artifactId") = Some art /\
              requirement cls (text art) = None.

(** The loop stops at [d]: the text of its first artifactId child is the
    key [a], with predicate [p]. *)
Definition selected (cls : DataCollectorClass) (d : Element) (a : string) (p : predicate)
  : Prop :=
  exists art, find d (xmlns "artifactId") = Some art /\
              text art = Some a /\
              dict_get (REQUIREMENTS cls) a = Some p.

(** The version child of [d] has the text [v]. *)
Definition has_version (d : Element) (v : string) : Prop :=
  exists ver, find d (xmlns "version") = Some ver /\ text ver = Some v.

(** The ways the body of the loop raises [e] at [d]. *)
Definition fails_at (cls : DataCollectorClass) (d : Element) (e : exn) : Prop :=
  (find d (xmlns "artifactId") = None /\ e = AttributeError) \/
  (exists a p, selected cls d a p /\
     ((find d (xmlns "version") = None /\ e = AttributeError) \/
      (exists ver, find d (xmlns "version") = Some ver /\ text ver = None /\
                   e = AttributeError) \/
      (exists v t, has_version d v /\ before_first_dot v t /\ p t = Raise e))).

(** ** Sample documents *)

Definition dependency (artifact version : string) : Element :=
  Elem (xmlns "dependency") None
    [Elem (xmlns "groupId") (Some "org.example") [];
     Elem (xmlns "artifactId") (Some artifact) [];
     Elem (xmlns "version") (Some version) []].

Definition dependency_without_version (artifact : string) : Element :=
  Elem (xmlns "dependency") None
    [Elem (xmlns "groupId") (Some "org.example") [];
     Elem (xmlns "artifactId") (Some artifact) []].

Definition pom (deps : list Element) : Element :=
  Elem (xmlns "project") None
    [Elem (xmlns "modelVersion") (Some "4.0.0") [];
     Elem (xmlns "dependencies") None deps].

(** A file system in which every path holds the document [root]. *)
Definition only_file (root : Element) : string -> result Element :=
  fun _ => Ok root.

(** A file system with two build descriptors and nothing else. *)
Definition two_files (a b : Element) : string -> result Element :=
  fun path =>
    if String.eqb path "a/pom.xml" then Ok a
    else if String.eqb path "b/pom.xml" then Ok b
    else Raise ParseError.

(** ** More of the built-ins: substrings, separators of any length, slices *)

Module Py.

(** [s.startswith(p)] *)
Definition startswith (p s : string) : bool :=
  match Str.strip_prefix p s with
  | Some _ => true
  | None => false
  end.

(** [needle in s] for two strings. *)
Fixpoint contains (needle s : string) : bool :=
  startswith needle s ||
  match s with
  | EmptyString => false
  | String _ s' => contains needle s'
  end.

(** The pieces of [s] between the occurrences of [sep], found from left to
    right without overlap; [skip] characters of a separator just found are
    still to be dropped. *)
Fixpoint split_at (sep : string) (skip : nat) (s : string) : list string :=
  match s with
  | EmptyString => [EmptyString]
  | String c s' =>
      match skip with
      | S k => split_at sep k s'
      | O =>
          if startswith sep s then EmptyString :: split_at sep (String.length sep - 1) s'
          else match split_at sep 0 s' with
               | piece :: pieces => String c piece :: pieces
               | [] => [String c EmptyString]
               end
      end
  end.

(** [s.split(sep)]: an empty separator is refused. *)
Definition split (sep s : string) : result (list string) :=
  match sep with
  | EmptyString => Raise ValueError
  | String _ _ => Ok (split_at sep 0 s)
  end.

(** [l[-1]] *)
Definition last_item {A : Type} (l : list A) : result A :=
  match rev l with
  | x :: _ => Ok x
  | [] => Raise IndexError
  end.

(** Where the bound [i] of a slice falls in a sequence of length [len]. *)
Definition slice_bound (len i : Z) : Z :=
  if (i <? 0)%Z then Z.max (i + len) 0 else Z.min i len.

(** [l[a:b]] *)
Definition slice {A : Type} (l : list A) (a b : Z) : list A :=
  let len := Z.of_nat (List.length l) in
  let lo := slice_bound len a in
  let hi := slice_bound len b in
  firstn (Z.to_nat (hi - lo)) (skipn (Z.to_nat lo) l).

(** [s[:b]] *)
Definition str_upto (s : string) (b : Z) : string :=
  Str.take (Z.to_nat (slice_bound (Z.of_nat (String.length s)) b)) s.

End Py.

(** A [dict] with strings as keys: the entries in the order the keys came in. *)
Module Dict.

Definition t (V : Type) : Type := list (string * V).

(** [d.get(k)] *)
Fixpoint get {V : Type} (k : string) (d : t V) : option V :=
  match d with
  | [] => None
  | (k', v) :: d' => if String.eqb k k' then Some v else get k d'
  end.

(** [d[k] = v]: a key that is there keeps its place. *)
Fixpoint set {V : Type} (k : string) (v : V) (d : t V) : t V :=
  match d with
  | [] => [(k, v)]
  | (k', v') :: d' =>
      if String.eqb k k' then (k', v) :: d' else (k', v') :: set k v d'
  end.

Definition keys {V : Type} (d : t V) : list string := map fst d.

(** [d[k].append(x)] on a [defaultdict(list)]. *)
Definition append_at {V : Type} (k : string) (x : V) (d : t (list V)) : t (list V) :=
  match get k d with
  | Some l => set k (l ++ [x])%list d
  | None => set k [x] d
  end.

End Dict.

(** ** The context manager [change_dir]

    The working directory belongs to the world outside the program: [W] is
    the state of that world, [E] the exceptions, and a command takes a world
    and gives back a value or an exception, and the world after it. *)

Section ChangeDir.

Variables W E : Type.

Definition command (A : Type) : Type := W -> (E + A) * W.

(** [Path.cwd()] reads the world, and may raise. *)
Variable Path_cwd : W -> E + string.

(** [os.chdir(path)] *)
Variable os_chdir : string -> command unit.

(** The [finally] clause: back to [original_dir], then on with [outcome],
    unless going back raises. *)
Definition finally_chdir {A : Type} (original_dir : string) (outcome : E + A) (w : W)
  : (E + A) * W :=
  match os_chdir original_dir w with
  | (inl e, w') => (inl e, w')
  | (inr _, w') => (outcome, w')
  end.

(** [with change_dir(destination): body] *)
Definition change_dir {A : Type} (destination : string) (body : command A) : command A :=
  fun w =>
    match Path_cwd w with
    | inl e => (inl e, w)
    | inr original_dir =>
        match os_chdir destination w with
        | (inl e, w1) => finally_chdir original_dir (inl e) w1
        | (inr _, w1) =>
            let (outcome, w2) := body w1 in
            finally_chdir original_dir outcome w2
        end
    end.

End ChangeDir.

(** ** [collect_test_method] and [collect_test_methods_with_shas] *)

(** An entry of method-data.json, as far as it is read: [m["path"]],
    [m["id"]] and [m["class_name"]]. *)
Record method_data : Type := MethodData {
  m_path : string;
  m_id : Z;
  m_class_name : string
}.

(** ["src/test" in m["path"] or "Test.java" in m["path"]] *)
Definition in_test_code (m : method_data) : bool :=
  Py.contains "src/test" (m_path m) || Py.contains "Test.java" (m_path m).

(** The loop of [collect_test_method] over [method_list]: what is dumped
    to test2methods.json. *)
Definition add_test_method (d : Dict.t (list Z)) (m : method_data) : Dict.t (list Z) :=
  if in_test_code m then Dict.append_at (m_class_name m) (m_id m) d else d.

Definition test_class_2_methods (method_list : list method_data) : Dict.t (list Z) :=
  fold_left add_test_method method_list [].

(** [m["path"].split('/')[-1].split('.java')[0]] *)
Definition class_name_of_path (path : string) : result string :=
  file_name <- Py.last_item (Str.split "/" path) ;;
  pieces <- Py.split ".java" file_name ;;
  Str.index pieces 0.

(** The loop of [collect_test_methods_with_shas]. *)
Fixpoint test_class_2_methods_with_shas_from
  (d : Dict.t (list Z)) (method_list : list method_data) : result (Dict.t (list Z)) :=
  match method_list with
  | [] => Ok d
  | m :: rest =>
      if in_test_code m then
        class_name <- class_name_of_path (m_path m) ;;
        test_class_2_methods_with_shas_from (Dict.append_at class_name (m_id m) d) rest
      else test_class_2_methods_with_shas_from d rest
  end.

Definition test_class_2_methods_with_shas (method_list : list method_data)
  : result (Dict.t (list Z)) :=
  test_class_2_methods_with_shas_from [] method_list.

(** ** [collect_eval_data] *)

(** [for p, sh in zip(projects, shas): proj_dict[p] = sh] *)
Definition add_project (d : Dict.t string) (ps : string * string) : Dict.t string :=
  Dict.set (fst ps) (snd ps) d.

Definition proj_dict (projects shas : list string) : Dict.t string :=
  fold_left add_project (combine projects shas) [].

(** ** [collect_projects] *)

(** The URLs that are gone through: [beg] and [cnt] default to the start and
    to the number of URLs, then [project_urls[beg:beg + cnt]]. *)
Definition project_urls_window (project_urls : list string) (beg cnt : option Z)
  : list string :=
  let beg := match beg with Some b => b | None => 0%Z end in
  let cnt := match cnt with Some c => c | None => Z.of_nat (List.length project_urls) end in
  Py.slice project_urls beg (beg + cnt)%Z.

(** [pom_xml_url = project_url[:-len(".git")] + "/blob/master/pom.xml"] *)
Definition pom_xml_url (project_url : string) : string :=
  Py.str_upto project_url (- Z.of_nat (String.length ".git"))%Z ++ "/blob/master/pom.xml".

(** ** Notions for the properties of this further code *)

(** The ids of the test methods of class [c], in the order of the list. *)
Definition ids_of_class (c : string) (method_list : list method_data) : list Z :=
  map m_id
    (filter (fun m => in_test_code m && String.eqb c (m_class_name m)) method_list).

(** [m'] is [m] with the class name read off its path. *)
Definition named_by_path (m m' : method_data) : Prop :=
  m_path m' = m_path m /\ m_id m' = m_id m /\
  (in_test_code m = true -> class_name_of_path (m_path m) = Ok (m_class_name m')).

(** The sha that the last pair for project [p] carries. *)
Definition last_sha (p : string) (pairs : list (string * string)) : option string :=
  option_map snd (List.find (fun ps => String.eqb p (fst ps)) (rev pairs)).

(** A small world: the working directory and the directories there are. *)
Record tiny_world : Type := TinyWorld {
  tw_cwd : string;
  tw_dirs : list string
}.

Inductive os_error : Type := FileNotFoundError.

Definition tiny_cwd (w : tiny_world) : os_error + string := inr (tw_cwd w).

Definition tiny_chdir (path : string) (w : tiny_world) : (os_error + unit) * tiny_world :=
  if existsb (String.eqb path) (tw_dirs w)
  then (inr tt, TinyWorld path (tw_dirs w))
  else (inl FileNotFoundError, w).

(** A body that removes the directory it was started from. *)
Definition tiny_rmdir (path : string) (w : tiny_world) : (os_error + unit) * tiny_world :=
  (inr tt, TinyWorld (tw_cwd w)
             (filter (fun d => negb (String.eqb path d)) (tw_dirs w))).

(** ** Facts about strings *)

Module StrFacts.
Import Str.

Lemma append_nil_r (s : string) : s ++ "" = s.
Proof. induction s as [|c s IH]; simpl; [reflexivity | now rewrite IH]. Qed.

Lemma append_assoc (a b c : string) : (a ++ b) ++ c = a ++ b ++ c.
Proof. induction a as [|x a IH]; simpl; [reflexivity | now rewrite IH]. Qed.

Lemma length_append (a b : string) :
  String.length (a ++ b) = String.length a + String.length b.
Proof. induction a as [|x a IH]; simpl; [reflexivity | now rewrite IH]. Qed.

Lemma append_eq_nil (a b : string) : a ++ b = "" -> a = "" /\ b = "".
Proof. destruct a; simpl; [auto | discriminate]. Qed.

Lemma append_inv_tail (a b t : string) : a ++ t = b ++ t -> a = b.
Proof.
  revert b; induction a as [|x a IH]; intros [|y b] H; simpl in H.
  - reflexivity.
  - exfalso. apply (f_equal String.length) in H. simpl in H.
    rewrite length_append in H. lia.
  - exfalso. apply (f_equal String.length) in H. simpl in H.
    rewrite length_append in H. lia.
  - injection H as -> H. f_equal. now apply IH.
Qed.

Lemma strip_prefix_app (p s : string) : strip_prefix p (p ++ s) = Some s.
Proof.
  induction p as [|a p IH]; simpl; [reflexivity|].
  now rewrite Ascii.eqb_refl.
Qed.

Lemma strip_prefix_Some (p s rest : string) :
  strip_prefix p s = Some rest -> s = p ++ rest.
Proof.
  revert s; induction p as [|a p IH]; intros s H; simpl in H.
  - now injection H as ->.
  - destruct s as [|b s]; [discriminate|].
    destruct (Ascii.eqb a b) eqn:E; [|discriminate].
    apply Ascii.eqb_eq in E. subst b. simpl. f_equal. now apply IH.
Qed.

Lemma take_app (a b : string) : take (String.length a) (a ++ b) = a.
Proof. induction a as [|x a IH]; simpl; [now destruct b | now rewrite IH]. Qed.

Lemma all_app (p : ascii -> bool) (a b : string) :
  all p (a ++ b) = all p a && all p b.
Proof.
  induction a as [|x a IH]; simpl; [reflexivity|].
  now rewrite IH, andb_assoc.
Qed.

(** What [split] gives on a string whose first separator is known. *)
Lemma split_free (sep : ascii) (s : string) :
  free_of sep s = true -> split sep s = [s].
Proof.
  unfold free_of. induction s as [|c s IH]; simpl; [reflexivity|].
  intros H. apply andb_true_iff in H as [Hc Hs].
  apply negb_true_iff in Hc. rewrite Hc, (IH Hs). reflexivity.
Qed.

Lemma split_sep (sep : ascii) (a rest : string) :
  free_of sep a = true ->
  split sep (a ++ String sep rest) = a :: split sep rest.
Proof.
  unfold free_of. induction a as [|c a IH]; simpl; intros H.
  - now rewrite Ascii.eqb_refl.
  - apply andb_true_iff in H as [Hc Ha].
    apply negb_true_iff in Hc. rewrite Hc, (IH Ha). reflexivity.
Qed.

(** Every string has a first piece: its part in front of the first [sep]. *)
Lemma first_piece (sep : ascii) (s : string) :
  exists b, free_of sep b = true /\ (s = b \/ exists tail, s = b ++ String sep tail).
Proof.
  unfold free_of. induction s as [|c s (b & Fb & IH)].
  - exists "". split; [reflexivity | now left].
  - destruct (Ascii.eqb c sep) eqn:Ec.
    + apply Ascii.eqb_eq in Ec. subst c.
      exists "". split; [reflexivity | right; now exists s].
    + exists (String c b). simpl. rewrite Ec, Fb. split; [reflexivity|].
      destruct IH as [-> | (tail & ->)]; [now left | right; now exists tail].
Qed.

(** A string in which [sep] occurs has a first occurrence. *)
Lemma first_sep (sep : ascii) (s : string) :
  free_of sep s = false ->
  exists a rest, s = a ++ String sep rest /\ free_of sep a = true.
Proof.
  intros H. destruct (first_piece sep s) as (b & Fb & [-> | (tail & ->)]).
  - congruence.
  - now exists b, tail.
Qed.

(** A string either ends in ".git" behind a non-empty front, or it does not. *)
Lemma git_suffix_dec (s : string) :
  (exists r, r <> "" /\ s = r ++ ".git") \/ (forall r, r <> "" -> s <> r ++ ".git").
Proof.
  induction s as [|c s IH].
  - right. intros r Hr H. symmetry in H. apply append_eq_nil in H as [? _]. contradiction.
  - destruct IH as [(r & Hr & ->) | IH].
    + left. exists (String c r). split; [discriminate | reflexivity].
    + destruct (string_dec s ".git") as [-> | Hs].
      * left. exists (String c ""). split; [discriminate | reflexivity].
      * right. intros [|x r] Hr H; [contradiction|].
        simpl in H. injection H as _ H.
        destruct r as [|y r]; [now apply Hs|].
        apply (IH (String y r)); [discriminate | exact H].
Qed.

End StrFacts.

(** ** The matcher finds a match exactly when there is one *)

Module ReFacts.
Import Str StrFacts Re.

Lemma plus_charset (cs : charset) (s : string) :
  matches (Plus cs) s <-> s <> "" /\ all (in_charset cs) s = true.
Proof.
  split.
  - intros H. remember (Plus cs) as r eqn:Er.
    induction H; inversion Er; subst; simpl.
    + split; [discriminate | now rewrite H].
    + destruct (IHmatches eq_refl) as [_ Hs].
      split; [discriminate | now rewrite H, Hs].
  - intros [Hne Hall]. induction s as [|c s IH]; [contradiction|].
    simpl in Hall. apply andb_true_iff in Hall as [Hc Hs].
    destruct s as [|d s].
    + now apply M_Plus_one.
    + apply M_Plus_more; [exact Hc | apply IH; [discriminate | exact Hs]].
Qed.

Lemma plus_lazy_charset (cs : charset) (s : string) :
  matches (PlusLazy cs) s <-> s <> "" /\ all (in_charset cs) s = true.
Proof.
  split.
  - intros H. remember (PlusLazy cs) as r eqn:Er.
    induction H; inversion Er; subst; simpl.
    + split; [discriminate | now rewrite H].
    + destruct (IHmatches eq_refl) as [_ Hs].
      split; [discriminate | now rewrite H, Hs].
  - intros [Hne Hall]. induction s as [|c s IH]; [contradiction|].
    simpl in Hall. apply andb_true_iff in Hall as [Hc Hs].
    destruct s as [|d s].
    + now apply M_PlusLazy_one.
    + apply M_PlusLazy_more; [exact Hc | apply IH; [discriminate | exact Hs]].
Qed.

(** Both loops succeed exactly when some non-empty run of the set can be
    taken off the front so that the continuation succeeds on the rest. *)
Lemma plus_greedy_found (cs : charset) (k : string -> option captures) (s : string) :
  found (plus_greedy cs s k) = true <->
  exists s1 s2, s = s1 ++ s2 /\ matches (Plus cs) s1 /\ found (k s2) = true.
Proof.
  induction s as [|c s IH]; simpl.
  - split; [discriminate|].
    intros (s1 & s2 & E & M & _). apply plus_charset in M as [Hne _].
    symmetry in E. apply append_eq_nil in E as [? _]. contradiction.
  - destruct (in_charset cs c) eqn:Hc.
    + destruct (plus_greedy cs s k) as [m|] eqn:Hg.
      * split; [intros _ | reflexivity].
        destruct IH as [IH _]. destruct (IH eq_refl) as (s1 & s2 & -> & M & Hk).
        exists (String c s1), s2. repeat split; [now apply M_Plus_more | exact Hk].
      * split.
        -- intros Hk. exists (String c ""), s.
           repeat split; [now apply M_Plus_one | exact Hk].
        -- intros (s1 & s2 & E & M & Hk).
           destruct s1 as [|x s1]; [apply plus_charset in M as [? _]; contradiction|].
           simpl in E. injection E as <- ->.
           destruct s1 as [|y s1]; [exact Hk|].
           destruct IH as [_ IH]. simpl in IH. discriminate IH.
           exists (String y s1), s2. repeat split; [|exact Hk].
           apply plus_charset in M as [_ M]. simpl in M.
           apply andb_true_iff in M as [_ M].
           apply plus_charset. split; [discriminate | exact M].
    + split; [discriminate|].
      intros (s1 & s2 & E & M & _). apply plus_charset in M as [Hne M].
      destruct s1 as [|x s1]; [contradiction|].
      simpl in E. injection E as <- _. simpl in M. rewrite Hc in M. discriminate.
Qed.

Lemma plus_lazy_found (cs : charset) (k : string -> option captures) (s : string) :
  found (plus_lazy cs s k) = true <->
  exists s1 s2, s = s1 ++ s2 /\ matches (PlusLazy cs) s1 /\ found (k s2) = true.
Proof.
  induction s as [|c s IH]; simpl.
  - split; [discriminate|].
    intros (s1 & s2 & E & M & _). apply plus_lazy_charset in M as [Hne _].
    symmetry in E. apply append_eq_nil in E as [? _]. contradiction.
  - destruct (in_charset cs c) eqn:Hc.
    + destruct (k s) as [m|] eqn:Hk.
      * split; [intros _ | reflexivity].
        exists (String c ""), s. repeat split; [now apply M_PlusLazy_one | now rewrite Hk].
      * rewrite IH. split.
        -- intros (s1 & s2 & -> & M & Hk2).
           exists (String c s1), s2. repeat split; [now apply M_PlusLazy_more | exact Hk2].
        -- intros (s1 & s2 & E & M & Hk2).
           destruct s1 as [|x s1]; [apply plus_lazy_charset in M as [? _]; contradiction|].
           simpl in E. injection E as <- ->.
           destruct s1 as [|y s1]; [simpl in Hk; rewrite Hk in Hk2; discriminate|].
           exists (String y s1), s2. repeat split; [|exact Hk2].
           apply plus_lazy_charset in M as [_ M]. simpl in M.
           apply andb_true_iff in M as [_ M].
           apply plus_lazy_charset. split; [discriminate | exact M].
    + split; [discriminate|].
      intros (s1 & s2 & E & M & _). apply plus_lazy_charset in M as [Hne M].
      destruct s1 as [|x s1]; [contradiction|].
      simpl in E. injection E as <- _. simpl in M. rewrite Hc in M. discriminate.
Qed.

(** The search with continuation [k] succeeds exactly when the subject splits
    into a part in the language of [r] and a rest on which [k] succeeds. *)
Lemma matchk_found (r : regex) :
  forall k, uniform k -> forall s env,
  found (matchk r s env k) = true <->
  exists s1 s2, s = s1 ++ s2 /\ matches r s1 /\ found (k s2 env) = true.
Proof.
  induction r as [p | cs | cs | r IH | n r IH | r1 IH1 r2 IH2]; intros k Uk s env; simpl.
  - destruct (strip_prefix p s) as [rest|] eqn:E.
    + apply strip_prefix_Some in E. subst s. split.
      * intros H. exists p, rest. repeat split; [constructor | exact H].
      * intros (s1 & s2 & E & M & H). inversion M; subst.
        match goal with
        | E : ?a ++ rest = ?a ++ s2 |- _ =>
            apply (f_equal (strip_prefix a)) in E;
            rewrite !strip_prefix_app in E; injection E as ->
        end.
        exact H.
    + split; [discriminate|].
      intros (s1 & s2 & -> & M & _). inversion M; subst.
      rewrite strip_prefix_app in E. discriminate.
  - apply plus_greedy_found.
  - apply plus_lazy_found.
  - destruct (matchk r s env k) as [m|] eqn:E.
    + split; [intros _ | reflexivity].
      assert (H : found (matchk r s env k) = true) by now rewrite E.
      apply (IH k Uk) in H as (s1 & s2 & -> & M & H).
      exists s1, s2. repeat split; [now apply M_Opt_present | exact H].
    + split.
      * intros H. exists "", s. repeat split; [apply M_Opt_absent | exact H].
      * intros (s1 & s2 & -> & M & H). inversion M; subst; [exact H|].
        assert (F : found (matchk r (s1 ++ s2) env k) = true).
        { apply (IH k Uk). now exists s1, s2. }
        rewrite E in F. discriminate.
  - assert (U : uniform (fun rest env' => k rest ((n, consumed s rest) :: env'))).
    { intros rest e1 e2. apply Uk. }
    rewrite (IH _ U). split.
    + intros (s1 & s2 & -> & M & H). exists s1, s2.
      repeat split; [now apply M_Group|].
      now rewrite (Uk s2 env ((n, consumed (s1 ++ s2) s2) :: env)).
    + intros (s1 & s2 & -> & M & H). inversion M; subst. exists s1, s2.
      repeat split; [assumption|].
      now rewrite (Uk s2 ((n, consumed (s1 ++ s2) s2) :: env) env).
  - assert (U : uniform (fun rest env' => matchk r2 rest env' k)).
    { intros rest e1 e2. apply eq_true_iff_eq.
      rewrite (IH2 k Uk rest e1), (IH2 k Uk rest e2).
      split; intros (s1 & s2 & E & M & H); exists s1, s2; repeat split; try assumption.
      - now rewrite (Uk s2 e2 e1).
      - now rewrite (Uk s2 e1 e2). }
    rewrite (IH1 _ U). split.
    + intros (s1 & s2 & -> & M1 & H). apply (IH2 k Uk) in H as (s3 & s4 & -> & M2 & H).
      exists (s1 ++ s3), s4. rewrite append_assoc.
      repeat split; [now apply M_Cat | exact H].
    + intros (s1 & s2 & -> & M & H). inversion M as [| | | | | | | |? ? t1 t2 M1 M2]; subst.
      exists t1, (t2 ++ s2). rewrite append_assoc. repeat split; [exact M1|].
      apply (IH2 k Uk). now exists t2, s2.
Qed.

Lemma at_end_uniform : uniform at_end.
Proof. intros [|c rest] e1 e2; reflexivity. Qed.

(** [fullmatch] returns a match exactly for the strings of the language. *)
Lemma fullmatch_matches (p : pattern) (s : string) :
  fullmatch p s <> None <-> matches (expr p) s.
Proof.
  unfold fullmatch.
  assert (H := matchk_found (expr p) at_end_uniform s []).
  split.
  - intros Hn. destruct (matchk (expr p) s [] at_end) eqn:E; [|contradiction].
    destruct H as [H _]. destruct (H eq_refl) as (s1 & s2 & -> & M & F).
    destruct s2; [|discriminate]. now rewrite append_nil_r.
  - intros M. destruct H as [_ H].
    destruct (matchk (expr p) s [] at_end); [discriminate|].
    simpl in H. discriminate H. exists s, "". now rewrite append_nil_r.
Qed.

End ReFacts.

(** ** The search on a URL of the expected shape *)

Module UrlFacts.
Import Str StrFacts Re ReFacts.

Lemma consumed_app (a b : string) : consumed (a ++ b) b = a.
Proof.
  unfold consumed. rewrite length_append.
  replace (String.length a + String.length b - String.length b)
    with (String.length a) by lia.
  apply take_app.
Qed.

(** The greedy loop over [[^c]] in front of a [c]: when the continuation
    wants a [c] next, the loop stops at the first [c] and nowhere else. *)
Lemma plus_greedy_run (c : ascii) (K : string -> option captures) (u t : string) :
  u <> "" -> free_of c u = true ->
  (forall x t', Ascii.eqb x c = false -> K (String x t') = None) ->
  plus_greedy (NotChar c) (u ++ String c t) K = K (String c t).
Proof.
  intros Hne Hfree HK. induction u as [|x u IH]; [contradiction|].
  unfold free_of in Hfree. simpl in Hfree.
  apply andb_true_iff in Hfree as [Hx Hu]. simpl. rewrite Hx.
  destruct u as [|y u].
  - simpl. now rewrite Ascii.eqb_refl.
  - rewrite IH; [|discriminate | exact Hu].
    destruct (K (String c t)); [reflexivity|].
    simpl in Hu. apply andb_true_iff in Hu as [Hy _].
    apply negb_true_iff in Hy. simpl. now apply HK.
Qed.

(** The lazy loop over ["."] stops at the first place where the continuation
    succeeds. *)
Lemma plus_lazy_first (K : string -> option captures) (r t : string) (m : captures) :
  r <> "" -> free_of LF r = true ->
  (forall r1 r2, r = r1 ++ r2 -> r1 <> "" -> r2 <> "" -> K (r2 ++ t) = None) ->
  K t = Some m ->
  plus_lazy Dot (r ++ t) K = Some m.
Proof.
  intros Hne Hfree Hearly Hk. induction r as [|x r IH]; [contradiction|].
  unfold free_of in Hfree. simpl in Hfree.
  apply andb_true_iff in Hfree as [Hx Hr]. simpl. rewrite Hx.
  destruct r as [|y r].
  - simpl. now rewrite Hk.
  - rewrite (Hearly (String x "") (String y r)); [|reflexivity|discriminate|discriminate].
    apply IH; [discriminate | exact Hr |].
    intros r1 r2 E H1 H2. apply (Hearly (String x r1) r2); [|discriminate|exact H2].
    simpl. now rewrite E.
Qed.

Lemma suffix_k_git (env : captures) : suffix_k env ".git" = Some ((3, ".git") :: env).
Proof. reflexivity. Qed.

Lemma suffix_k_nil (env : captures) : suffix_k env "" = Some env.
Proof. reflexivity. Qed.

Lemma suffix_k_other (env : captures) (x : string) :
  x <> "" -> x <> ".git" -> suffix_k env x = None.
Proof.
  intros Hne Hgit. unfold suffix_k. cbn [matchk].
  destruct (strip_prefix ".git" x) as [rest|] eqn:E.
  - apply strip_prefix_Some in E. destruct rest as [|c rest].
    + subst x. now contradiction Hgit.
    + cbn [at_end]. destruct x; [contradiction | reflexivity].
  - destruct x; [contradiction | reflexivity].
Qed.

Lemma fullmatch_url_unfold (u rest : string) :
  u <> "" -> free_of "/" u = true ->
  fullmatch RE_GITHUB_URL ("https://github.com/" ++ u ++ "/" ++ rest)
  = plus_lazy Dot rest (fun x => suffix_k [(2, consumed rest x); (1, u)] x).
Proof.
  intros Hne Hfree. unfold fullmatch, RE_GITHUB_URL, expr.
  cbn [matchk].
  rewrite strip_prefix_app.
  change ("/" ++ rest) with (String "/" rest).
  rewrite plus_greedy_run; [|exact Hne|exact Hfree|].
  - change (String "/" rest) with ("/" ++ rest).
    rewrite strip_prefix_app, consumed_app. reflexivity.
  - intros x t' Hx. cbn [strip_prefix]. rewrite Ascii.eqb_sym, Hx. reflexivity.
Qed.

(** A repo part followed by ".git": the group [repo] is the part in front. *)
Lemma parse_strips_git (u r : string) :
  u <> "" -> free_of "/" u = true -> r <> "" -> free_of LF r = true ->
  parse_github_url ("https://github.com/" ++ u ++ "/" ++ r ++ ".git")
  = Some (Some u, Some r).
Proof.
  intros Hu Fu Hr Fr. unfold parse_github_url.
  rewrite (fullmatch_url_unfold _ Hu Fu).
  rewrite (@plus_lazy_first _ r ".git" [(3, ".git"); (2, r); (1, u)]); try assumption.
  - reflexivity.
  - intros r1 r2 E H1 H2. apply suffix_k_other.
    + intros H. apply append_eq_nil in H as [? _]. contradiction.
    + intros H. apply H2. now apply (append_inv_tail r2 "" ".git").
  - now rewrite consumed_app, suffix_k_git.
Qed.

(** A repo part that does not end in ".git" behind a non-empty front: the
    group [repo] is all of it. *)
Lemma parse_keeps_rest (u r : string) :
  u <> "" -> free_of "/" u = true -> r <> "" -> free_of LF r = true ->
  (forall r', r' <> "" -> r <> r' ++ ".git") ->
  parse_github_url ("https://github.com/" ++ u ++ "/" ++ r) = Some (Some u, Some r).
Proof.
  intros Hu Fu Hr Fr Hgit. unfold parse_github_url.
  rewrite (fullmatch_url_unfold _ Hu Fu).
  rewrite <- (append_nil_r r) at 1.
  rewrite (@plus_lazy_first _ r "" [(2, r); (1, u)]); try assumption.
  - reflexivity.
  - intros r1 r2 E H1 H2. rewrite append_nil_r. apply suffix_k_other; [exact H2|].
    intros ->. now apply (Hgit r1).
  - change "" with ("" ++ "") at 2.
    rewrite <- (append_nil_r r) at 1.
    now rewrite consumed_app, suffix_k_nil.
Qed.

Lemma matches_url_shape (s : string) :
  matches (expr RE_GITHUB_URL) s <-> exists u r g, url_shape s u r g.
Proof.
  unfold url_shape, RE_GITHUB_URL, expr. split.
  - intros M.
    repeat match goal with
    | H : matches (Cat _ _) _ |- _ => inversion H; clear H; subst
    | H : matches (Group _ _) _ |- _ => inversion H; clear H; subst
    | H : matches (Lit _) _ |- _ => inversion H; clear H; subst
    end.
    match goal with H : matches (Plus _) ?u |- _ =>
      apply plus_charset in H as [Hu Fu]; exists u end.
    match goal with H : matches (PlusLazy _) ?r |- _ =>
      apply plus_lazy_charset in H as [Hr Fr]; exists r end.
    match goal with H : matches (Opt _) ?g |- _ => exists g; inversion H; clear H; subst end.
    + repeat split; auto.
    + match goal with H : matches (Group _ _) _ |- _ => inversion H; clear H; subst end.
      match goal with H : matches (Lit _) _ |- _ => inversion H; clear H; subst end.
      repeat split; auto.
  - intros (u & r & g & -> & Hu & Fu & Hr & Fr & Hg).
    apply M_Cat; [constructor|].
    apply M_Cat; [apply M_Group, plus_charset; now split|].
    apply (M_Cat (r1 := Lit "/")); [constructor|].
    apply M_Cat; [apply M_Group, plus_lazy_charset; now split|].
    destruct Hg as [-> | ->]; [apply M_Opt_absent|].
    apply M_Opt_present, M_Group. constructor.
Qed.

(** What [parse_github_url] returns on a string of the language. *)
Lemma parse_on_shape (s u r g : string) :
  url_shape s u r g ->
  exists repo, parse_github_url s = Some (Some u, Some repo) /\
               (r ++ g = repo \/ r ++ g = repo ++ ".git") /\
               repo <> "" /\ free_of LF repo = true.
Proof.
  intros (-> & Hu & Fu & Hr & Fr & Hg).
  assert (Hrest : r ++ g <> "").
  { intros H. apply append_eq_nil in H as [? _]. contradiction. }
  assert (Frest : free_of LF (r ++ g) = true).
  { unfold free_of in *. rewrite all_app, Fr.
    destruct Hg as [-> | ->]; reflexivity. }
  destruct (git_suffix_dec (r ++ g)) as [(r0 & Hr0 & E) | Hno].
  - exists r0. rewrite E in *.
    assert (F0 : free_of LF r0 = true).
    { unfold free_of in *. rewrite all_app in Frest.
      now apply andb_true_iff in Frest as [? _]. }
    repeat split; auto. now apply parse_strips_git.
  - exists (r ++ g). repeat split; auto. now apply parse_keeps_rest.
Qed.

(** No match, or both groups and a subject made of them. *)
Lemma parse_total (s : string) :
  (parse_github_url s = None /\ ~ matches (expr RE_GITHUB_URL) s) \/
  (exists u repo,
     parse_github_url s = Some (Some u, Some repo) /\
     (s = "https://github.com/" ++ u ++ "/" ++ repo \/
      s = "https://github.com/" ++ u ++ "/" ++ repo ++ ".git") /\
     u <> "" /\ free_of "/" u = true /\ repo <> "" /\ free_of LF repo = true).
Proof.
  destruct (parse_github_url s) as [pr|] eqn:E.
  - right.
    assert (M : matches (expr RE_GITHUB_URL) s).
    { apply fullmatch_matches. unfold parse_github_url in E.
      destruct (fullmatch RE_GITHUB_URL s); [discriminate | discriminate E]. }
    apply matches_url_shape in M as (u & r & g & Sh).
    destruct (parse_on_shape Sh) as (repo & P & Hrepo & Hne & Hfree).
    destruct Sh as (Es & Hu & Fu & _).
    exists u, repo. rewrite E in P. rewrite P.
    repeat split; auto.
    destruct Hrepo as [H | H]; rewrite H in Es; auto.
  - left. split; [reflexivity|]. intros M.
    apply fullmatch_matches in M. unfold parse_github_url in E.
    destruct (fullmatch RE_GITHUB_URL s); [discriminate | now apply M].
Qed.

End UrlFacts.

(** ** The loop of the dependency gate *)

Module GateFacts.
Import Str StrFacts.

Lemma major_version_before_dot (v t : string) :
  before_first_dot v t -> major_version (Some v) = Ok t.
Proof.
  intros [Ft [-> | (rest & ->)]]; unfold major_version.
  - now rewrite (split_free _ _ Ft).
  - change ("." ++ rest) with (String "." rest).
    now rewrite (split_sep _ _ rest Ft).
Qed.

Lemma before_first_dot_exists (v : string) : exists t, before_first_dot v t.
Proof.
  destruct (first_piece "." v) as (t & Ft & H). exists t. split; [exact Ft|].
  destruct H as [-> | (rest & ->)]; [now left | right; now exists rest].
Qed.

Lemma before_first_dot_unique (v t t' : string) :
  before_first_dot v t -> before_first_dot v t' -> t = t'.
Proof.
  intros H H'. apply major_version_before_dot in H, H'.
  rewrite H in H'. now injection H'.
Qed.

Lemma bind_bool (r : result bool) :
  (holds <- r ;; if holds then Ok true else Ok false) = r.
Proof. destruct r as [[|]|e]; reflexivity. Qed.

Section Loop.

Variable cls : DataCollectorClass.

Lemma for_d_in_passed (d : Element) (l : list Element) :
  passed_over cls d -> for_d_in cls (d :: l) = for_d_in cls l.
Proof. intros (art & Hf & Hr). simpl. now rewrite Hf; simpl; rewrite Hr. Qed.

Lemma for_d_in_skip (pre l : list Element) :
  Forall (passed_over cls) pre -> for_d_in cls (pre ++ l)%list = for_d_in cls l.
Proof.
  induction 1 as [|d pre Hd _ IH]; [reflexivity|].
  rewrite <- app_comm_cons, for_d_in_passed; assumption.
Qed.

Lemma for_d_in_all_passed (l : list Element) :
  Forall (passed_over cls) l -> for_d_in cls l = Ok false.
Proof.
  intros H. rewrite <- (app_nil_r l). now rewrite for_d_in_skip.
Qed.

(** At the dependency the loop stops at, the answer is the predicate's. *)
Lemma for_d_in_selected (d : Element) (post : list Element)
      (a : string) (p : predicate) :
  selected cls d a p ->
  for_d_in cls (d :: post)
  = (version_text <- text_of (find d (xmlns "version")) ;;
     version <- major_version version_text ;;
     p version).
Proof.
  intros (art & Hf & Ht & Hp). simpl. rewrite Hf. simpl. rewrite Ht. simpl. rewrite Hp.
  destruct (text_of (find d (xmlns "version"))) as [vt|e]; [|reflexivity]. simpl.
  destruct (major_version vt) as [t|e]; [|reflexivity]. simpl.
  apply bind_bool.
Qed.

Lemma for_d_in_decides (d : Element) (post : list Element)
      (a : string) (p : predicate) (v t : string) :
  selected cls d a p -> has_version d v -> before_first_dot v t ->
  for_d_in cls (d :: post) = p t.
Proof.
  intros Hs (ver & Hv & Ht) Hb. rewrite (for_d_in_selected post Hs).
  rewrite Hv. simpl. rewrite Ht.
  now rewrite (major_version_before_dot Hb).
Qed.

(** Each dependency is passed over, or stops the loop with an answer of the
    predicate, or makes the body raise. *)
Lemma body_cases (d : Element) :
  passed_over cls d \/
  (exists e, fails_at cls d e) \/
  (exists a p v t b, selected cls d a p /\ has_version d v /\
                     before_first_dot v t /\ p t = Ok b).
Proof.
  destruct (find d (xmlns "artifactId")) as [art|] eqn:Hf.
  2:{ right; left. exists AttributeError. now left. }
  destruct (requirement cls (text art)) as [p|] eqn:Hr.
  2:{ left. now exists art. }
  destruct (text art) as [a|] eqn:Ha; [|discriminate].
  simpl in Hr.
  assert (Hs : selected cls d a p) by now exists art.
  destruct (find d (xmlns "version")) as [ver|] eqn:Hv.
  2:{ right; left. exists AttributeError. right. exists a, p. split; [exact Hs | now left]. }
  destruct (text ver) as [v|] eqn:Hvt.
  2:{ right; left. exists AttributeError. right. exists a, p. split; [exact Hs|].
      right; left. now exists ver. }
  destruct (before_first_dot_exists v) as (t & Hb).
  assert (Hver : has_version d v) by now exists ver.
  destruct (p t) as [b|e] eqn:Hp.
  - right; right. now exists a, p, v, t, b.
  - right; left. exists e. right. exists a, p. split; [exact Hs|].
    right; right. now exists v, t.
Qed.

Lemma for_d_in_fails (d : Element) (post : list Element) (e : exn) :
  fails_at cls d e -> for_d_in cls (d :: post) = Raise e.
Proof.
  intros [[Hf ->] | (a & p & Hs & H)].
  - simpl. now rewrite Hf.
  - destruct H as [[Hv ->] | [(ver & Hv & Ht & ->) | (v & t & Hver & Hb & Hp)]].
    + rewrite (for_d_in_selected post Hs), Hv. reflexivity.
    + rewrite (for_d_in_selected post Hs), Hv. simpl. now rewrite Ht.
    + now rewrite (for_d_in_decides post Hs Hver Hb).
Qed.

(** The loop raises exactly when the body raises at the first dependency
    that is not passed over. *)
Lemma for_d_in_raises (l : list Element) (e : exn) :
  for_d_in cls l = Raise e <->
  exists pre d post, l = (pre ++ d :: post)%list /\
                     Forall (passed_over cls) pre /\ fails_at cls d e.
Proof.
  split.
  - induction l as [|d l IH]; [discriminate|].
    intros H. destruct (body_cases d) as [Hp | [(e' & Hf) | Hok]].
    + rewrite (for_d_in_passed l Hp) in H.
      destruct (IH H) as (pre & d' & post & -> & Hpre & Hd').
      exists (d :: pre), d', post. repeat split; [now constructor | exact Hd'].
    + rewrite (for_d_in_fails l Hf) in H. injection H as ->.
      exists [], d, l. repeat split; [constructor | exact Hf].
    + destruct Hok as (a & p & v & t & b & Hs & Hv & Hb & Hp).
      rewrite (for_d_in_decides l Hs Hv Hb), Hp in H. discriminate.
  - intros (pre & d & post & -> & Hpre & Hd).
    rewrite (for_d_in_skip _ Hpre). now apply for_d_in_fails.
Qed.

(** What stands in front of a list is gone through in the same way whatever
    follows, as long as what follows gives the same answer. *)
Lemma for_d_in_app (pre l1 l2 : list Element) :
  for_d_in cls l1 = for_d_in cls l2 ->
  for_d_in cls (pre ++ l1)%list = for_d_in cls (pre ++ l2)%list.
Proof.
  intros H. induction pre as [|d pre IH]; [exact H|]. simpl.
  destruct (text_of (find d (xmlns "artifactId"))) as [key|e]; [|reflexivity]. simpl.
  destruct (requirement cls key); [reflexivity | exact IH].
Qed.

End Loop.

(** [check_junit] on a document that parses, at the dependency that decides. *)
Lemma check_junit_decides (parse : string -> result Element) cls pom_file root
      pre d post a p v t :
  parse pom_file = Ok root ->
  findall root (xmlns "dependency") = (pre ++ d :: post)%list ->
  Forall (passed_over cls) pre ->
  selected cls d a p -> has_version d v -> before_first_dot v t ->
  check_junit parse cls pom_file = p t.
Proof.
  intros Hroot Hdeps Hpre Hs Hv Hb. unfold check_junit. rewrite Hroot. simpl.
  rewrite Hdeps, (for_d_in_skip _ Hpre). exact (for_d_in_decides post Hs Hv Hb).
Qed.

End GateFacts.

(** ** What [int] accepts *)

Module IntFacts.
Import Str StrFacts Int.

Lemma int_raises_ValueError (t : string) (e : exn) :
  int t = Raise e -> e = ValueError.
Proof.
  unfold int. destruct (sign (lstrip t)) as [negative body].
  destruct body as [|c body]; [congruence|].
  destruct (digit_val c); [|congruence].
  destruct (digits (String c body) 0 0) as [[v n] rest].
  destruct (lstrip rest); [|congruence].
  destruct (n <=? max_str_digits)%nat; congruence.
Qed.

Lemma not_literal_raises (t : string) :
  ~ decimal_literal t <-> int t = Raise ValueError.
Proof.
  unfold decimal_literal. split.
  - intros H. destruct (int t) as [z|e] eqn:E.
    + exfalso. apply H. now exists z.
    + apply int_raises_ValueError in E. now subst e.
  - intros E (z & H). congruence.
Qed.

Lemma space_numeric (c : ascii) : is_space c = true -> numeric_char c = true.
Proof. intros H. unfold numeric_char. rewrite H. now destruct (digit_val c). Qed.

Lemma digit_numeric (c : ascii) (d : Z) : digit_val c = Some d -> numeric_char c = true.
Proof. intros H. unfold numeric_char. now rewrite H. Qed.

Lemma lstrip_numeric (s : string) :
  all numeric_char (lstrip s) = true -> all numeric_char s = true.
Proof.
  induction s as [|c s IH]; simpl; [reflexivity|].
  destruct (is_space c) eqn:Hc; [|now simpl].
  intros H. now rewrite (space_numeric _ Hc), IH.
Qed.

Lemma lstrip_nil_numeric (s : string) : lstrip s = "" -> all numeric_char s = true.
Proof. intros H. apply lstrip_numeric. now rewrite H. Qed.

(** What [digits] leaves is a tail of its input, behind numeric characters. *)
Lemma digits_numeric (len : nat) :
  forall s acc n v n' rest,
  (String.length s <= len)%nat ->
  digits s acc n = (v, n', rest) ->
  all numeric_char rest = true -> all numeric_char s = true.
Proof.
  induction len as [|len IH]; intros s acc n v n' rest Hlen H Hrest.
  - destruct s; [reflexivity | simpl in Hlen; lia].
  - destruct s as [|c s]; [reflexivity|]. simpl in Hlen, H.
    destruct (digit_val c) as [d|] eqn:Hd.
    + simpl. rewrite (digit_numeric _ Hd). simpl.
      apply (IH s _ _ _ _ _ ltac:(lia) H Hrest).
    + destruct (Ascii.eqb c "_") eqn:Hu.
      * destruct s as [|c' s]; [injection H as _ _ <-; exact Hrest|].
        destruct (digit_val c') as [d|] eqn:Hd'.
        -- simpl. unfold numeric_char at 1. rewrite Hd, Hu, orb_true_r. simpl.
           rewrite (digit_numeric _ Hd'). simpl. simpl in Hlen.
           apply (IH s _ _ _ _ _ ltac:(lia) H Hrest).
        -- injection H as _ _ <-. exact Hrest.
      * injection H as _ _ <-. exact Hrest.
Qed.

Lemma sign_numeric (s body : string) (negative : bool) :
  sign s = (negative, body) -> all numeric_char body = true ->
  all numeric_char s = true.
Proof.
  unfold sign. destruct s as [|c s]; [now intros [= _ <-]|].
  destruct (Ascii.eqb c "+") eqn:Hp.
  - intros [= _ <-] H. simpl. unfold numeric_char at 1.
    rewrite Hp, H, !orb_true_r. now destruct (digit_val c).
  - destruct (Ascii.eqb c "-") eqn:Hm.
    + intros [= _ <-] H. simpl. unfold numeric_char at 1.
      rewrite Hm, H, !orb_true_r. now destruct (digit_val c).
    + now intros [= _ <-].
Qed.

(** A literal is made of digits, white space, signs and underscores only. *)
Lemma literal_numeric (t : string) :
  decimal_literal t -> all numeric_char t = true.
Proof.
  intros (z & H). unfold int in H.
  destruct (sign (lstrip t)) as [negative body] eqn:Hs.
  apply lstrip_numeric. apply (sign_numeric _ Hs).
  destruct body as [|c body]; [discriminate|].
  destruct (digit_val c); [|discriminate].
  destruct (digits (String c body) 0 0) as [[v n] rest] eqn:Hd.
  destruct (lstrip rest) eqn:Hr; [|discriminate].
  apply (digits_numeric _ _ _ (le_n _) Hd). now apply lstrip_nil_numeric.
Qed.

End IntFacts.

(** ** The URL recognizer *)

Import Str StrFacts.

Lemma parse_None_iff (s : string) :
  parse_github_url s = None <-> Re.fullmatch RE_GITHUB_URL s = None.
Proof.
  unfold parse_github_url. destruct (Re.fullmatch RE_GITHUB_URL s); split; congruence.
Qed.

(** C1, as stated, fails: the URL with a path segment behind the repo name
    is not turned down; the group [repo] takes the segment in. *)
Lemma trailing_segment_is_parsed :
  parse_github_url "https://github.com/foo/bar/extra" <> None /\
  parse_github_url "https://github.com/foo/bar/extra" = Some (Some "foo", Some "bar/extra").
Proof. split; [discriminate | reflexivity]. Qed.

(** C1, amended: [parse_github_url] accepts a string exactly when the whole
    of it is the host prefix, a non-empty user without slash, a slash, a
    non-empty repo without line feed, and ".git" or nothing.  Slashes are
    allowed in the repo: whatever stands behind the user's slash (non-empty,
    on one line) is accepted, and comes back as the repo, less one final
    ".git".  So "https://github.com/foo/bar/extra" parses to
    ("foo", "bar/extra"). *)
Theorem parse_github_url_whole_string :
  (forall s, parse_github_url s <> None <-> exists u r g, url_shape s u r g) /\
  (forall u rest,
     u <> "" -> free_of "/" u = true -> rest <> "" -> free_of Re.LF rest = true ->
     exists repo,
       parse_github_url ("https://github.com/" ++ u ++ "/" ++ rest)
       = Some (Some u, Some repo) /\
       (rest = repo \/ rest = repo ++ ".git")) /\
  parse_github_url "https://github.com/foo/bar/extra" = Some (Some "foo", Some "bar/extra").
Proof.
  split; [|split; [|reflexivity]].
  - intros s. rewrite parse_None_iff, ReFacts.fullmatch_matches.
    apply UrlFacts.matches_url_shape.
  - intros u rest Hu Fu Hr Fr.
    assert (Sh : url_shape ("https://github.com/" ++ u ++ "/" ++ rest) u rest "").
    { unfold url_shape. rewrite append_nil_r. repeat split; auto. }
    destruct (UrlFacts.parse_on_shape Sh) as (repo & P & H & _).
    rewrite append_nil_r in H. now exists repo.
Qed.

Lemma parse_github_url_whole_string_witness :
  exists repo,
    parse_github_url ("https://github.com/" ++ "foo" ++ "/" ++ "bar/extra.git")
    = Some (Some "foo", Some repo) /\
    ("bar/extra.git" = repo \/ "bar/extra.git" = repo ++ ".git").
Proof.
  apply (proj1 (proj2 parse_github_url_whole_string) "foo" "bar/extra.git");
    [discriminate | reflexivity | discriminate | reflexivity].
Defined.

(** C5: when [parse_github_url] matches, both groups are there and the
    subject is the host prefix, the user, a slash and the repo, with ".git"
    behind it or not: the suffix is not part of the repo that is returned.  A
    repo followed by ".git" comes back without it.  The three sample URLs
    behave as the specification says. *)
Theorem parse_github_url_strips_git :
  (forall s user repo,
     parse_github_url s = Some (user, repo) ->
     exists u r, user = Some u /\ repo = Some r /\
       (s = "https://github.com/" ++ u ++ "/" ++ r \/
        s = "https://github.com/" ++ u ++ "/" ++ r ++ ".git")) /\
  (forall u r,
     u <> "" -> free_of "/" u = true -> r <> "" -> free_of Re.LF r = true ->
     parse_github_url ("https://github.com/" ++ u ++ "/" ++ r ++ ".git")
     = Some (Some u, Some r)) /\
  parse_github_url "https://github.com/foo/bar.git" = Some (Some "foo", Some "bar") /\
  parse_github_url "https://github.com/foo/bar" = Some (Some "foo", Some "bar") /\
  parse_github_url "https://example.com/foo/bar" = None.
Proof.
  split; [|split; [|repeat split]].
  - intros s user repo H.
    destruct (UrlFacts.parse_total s) as [[E _] | (u & r & E & Hs & _)]; [congruence|].
    rewrite E in H. injection H as <- <-. now exists u, r.
  - intros u r. apply UrlFacts.parse_strips_git.
Qed.

Lemma parse_github_url_strips_git_witness :
  parse_github_url ("https://github.com/" ++ "octo" ++ "/" ++ "hello.world" ++ ".git")
  = Some (Some "octo", Some "hello.world") /\
  exists u r, Some "octo" = Some u /\ Some "hello.world" = Some r /\
    ("https://github.com/octo/hello.world.git" = "https://github.com/" ++ u ++ "/" ++ r \/
     "https://github.com/octo/hello.world.git"
     = "https://github.com/" ++ u ++ "/" ++ r ++ ".git").
Proof.
  split.
  - apply (proj1 (proj2 parse_github_url_strips_git) "octo" "hello.world");
      [discriminate | reflexivity | discriminate | reflexivity].
  - apply (proj1 parse_github_url_strips_git "https://github.com/octo/hello.world.git").
    reflexivity.
Defined.

(** C7: a string that is not in the language of the pattern gets [None], a
    value and not an exception; and [None] is returned for no other string. *)
Theorem parse_github_url_no_match :
  forall s, ~ Re.matches (Re.expr RE_GITHUB_URL) s <-> parse_github_url s = None.
Proof.
  intros s. rewrite parse_None_iff, <- ReFacts.fullmatch_matches.
  destruct (Re.fullmatch RE_GITHUB_URL s); split; try congruence.
  intros H. exfalso. apply H. discriminate.
Qed.

Lemma parse_github_url_no_match_witness :
  parse_github_url "https://example.com/foo/bar" = None.
Proof.
  apply (proj1 (parse_github_url_no_match "https://example.com/foo/bar")).
  intros M. apply ReFacts.fullmatch_matches in M. apply M. reflexivity.
Defined.

(** ** Project names *)

Lemma parse_repo_name_pieces (a b : string) (more : list string) :
  split "_" (project_name a b) = a :: b :: more ->
  parse_repo_name (project_name a b)
  = Ok ("https://github.com/" ++ a ++ "/" ++ b ++ ".git").
Proof. intros H. unfold parse_repo_name. rewrite H. reflexivity. Qed.

(** C8: a project name without underscore makes [parse_repo_name] raise
    [IndexError]; a name with an underscore gives the URL made of the text in
    front of the first underscore and the text between the first underscore
    and the second one (or the end of the name, when there is no second). *)
Theorem parse_repo_name_underscore :
  forall name,
    (free_of "_" name = true -> parse_repo_name name = Raise IndexError) /\
    (free_of "_" name = false ->
     exists a b,
       free_of "_" a = true /\ free_of "_" b = true /\
       (name = a ++ "_" ++ b \/ exists tail, name = a ++ "_" ++ b ++ "_" ++ tail) /\
       parse_repo_name name = Ok ("https://github.com/" ++ a ++ "/" ++ b ++ ".git")).
Proof.
  intros name. split; intros H.
  - unfold parse_repo_name. now rewrite (split_free _ _ H).
  - destruct (first_sep _ _ H) as (a & rest & -> & Fa).
    destruct (first_piece "_" rest) as (b & Fb & Hrest).
    exists a, b. repeat split; try assumption.
    + destruct Hrest as [-> | (tail & ->)]; [now left | right; now exists tail].
    + unfold parse_repo_name. rewrite (split_sep _ _ rest Fa).
      destruct Hrest as [-> | (tail & ->)].
      * now rewrite (split_free _ _ Fb).
      * now rewrite (split_sep _ _ tail Fb).
Qed.

Lemma parse_repo_name_underscore_witness :
  parse_repo_name "apache-commons-io" = Raise IndexError /\
  exists a b,
    free_of "_" a = true /\ free_of "_" b = true /\
    ("apache_commons_io" = a ++ "_" ++ b \/
     exists tail, "apache_commons_io" = a ++ "_" ++ b ++ "_" ++ tail) /\
    parse_repo_name "apache_commons_io"
    = Ok ("https://github.com/" ++ a ++ "/" ++ b ++ ".git").
Proof.
  split.
  - apply (proj1 (parse_repo_name_underscore "apache-commons-io")). reflexivity.
  - apply (proj2 (parse_repo_name_underscore "apache_commons_io")). reflexivity.
Defined.

(** C2, as stated, fails: an empty owner has neither underscore nor slash,
    and the URL made from it is not a GitHub URL for the pattern; a repo with
    a line feed in it is lost in the same way. *)
Lemma roundtrip_loses_pair :
  (free_of "_" "" = true /\ free_of "/" "" = true /\
   free_of "_" "bar" = true /\ free_of "/" "bar" = true /\
   roundtrip "" "bar" = Ok None /\
   roundtrip "" "bar" <> Ok (Some (Some "", Some "bar"))) /\
  (let repo := "a" ++ String Re.LF "b" in
   free_of "_" "foo" = true /\ free_of "/" "foo" = true /\
   free_of "_" repo = true /\ free_of "/" repo = true /\
   roundtrip "foo" repo = Ok None).
Proof. repeat split; discriminate. Qed.

(** C2, amended: for an owner and a repo without underscore and slash, the
    round trip gives back the pair exactly when both are non-empty and the
    repo has no line feed in it. *)
Theorem roundtrip_recovers_pair :
  forall owner repo,
    free_of "_" owner = true -> free_of "/" owner = true ->
    free_of "_" repo = true -> free_of "/" repo = true ->
    (roundtrip owner repo = Ok (Some (Some owner, Some repo)) <->
     owner <> "" /\ repo <> "" /\ free_of Re.LF repo = true).
Proof.
  intros owner repo Uo So Ur Sr.
  assert (E : roundtrip owner repo
              = Ok (parse_github_url ("https://github.com/" ++ owner ++ "/" ++ repo ++ ".git"))).
  { unfold roundtrip. rewrite (@parse_repo_name_pieces owner repo []); [reflexivity|].
    unfold project_name. change ("_" ++ repo) with (String "_" repo).
    now rewrite (split_sep _ _ repo Uo), (split_free _ _ Ur). }
  rewrite E. clear E.
  remember ("https://github.com/" ++ owner ++ "/" ++ repo ++ ".git") as url eqn:Eurl.
  split.
  - intros H. injection H as H.
    destruct (UrlFacts.parse_total url)
      as [[N _] | (u & r & P & _ & Hu & _ & Hr & Fr)]; [congruence|].
    rewrite P in H. injection H as -> ->. auto.
  - intros (Ho & Hr & Fr). subst url. f_equal. now apply UrlFacts.parse_strips_git.
Qed.

Lemma roundtrip_recovers_pair_witness :
  roundtrip "apache" "commons-io" = Ok (Some (Some "apache", Some "commons-io")).
Proof.
  apply (proj2 (roundtrip_recovers_pair "apache" "commons-io"
                  eq_refl eq_refl eq_refl eq_refl)).
  repeat split; [discriminate | discriminate].
Defined.

(** ** The dependency gate *)

Import GateFacts.

Lemma junit_is_the_key (a : string) (p : predicate) :
  dict_get (REQUIREMENTS DataCollector) a = Some p ->
  a = "junit" /\ p = junit_requirement.
Proof.
  simpl. destruct (String.eqb a "junit") eqn:E; [|discriminate].
  apply String.eqb_eq in E. intros [= <-]. now split.
Qed.

Lemma junit_requirement_raises (t : string) (e : exn) :
  junit_requirement t = Raise e <-> e = ValueError /\ ~ decimal_literal t.
Proof.
  unfold junit_requirement. split.
  - destruct (Int.int t) as [z|e'] eqn:E; [discriminate|].
    simpl. intros [= <-]. apply IntFacts.int_raises_ValueError in E as E'. subst e'.
    split; [reflexivity | now apply IntFacts.not_literal_raises].
  - intros [-> H]. apply IntFacts.not_literal_raises in H. now rewrite H.
Qed.

(** C3: with the dependencies in document order, the first one whose
    artifact identifier is a key of the table decides: [check_junit] returns
    what the predicate returns on it, true or false, whatever comes behind it;
    when every dependency is passed over, [check_junit] returns false.  With
    an unrelated artifact followed by junit 4.13 the answer is true, with
    junit 3.8 it is false, and a later junit does not change either answer. *)
Theorem check_junit_first_match :
  (forall (parse : string -> result Element) cls pom_file root,
     parse pom_file = Ok root ->
     (forall pre d post a p v t b,
        findall root (xmlns "dependency") = (pre ++ d :: post)%list ->
        Forall (passed_over cls) pre ->
        selected cls d a p -> has_version d v -> before_first_dot v t ->
        p t = Ok b ->
        check_junit parse cls pom_file = Ok b) /\
     (Forall (passed_over cls) (findall root (xmlns "dependency")) ->
      check_junit parse cls pom_file = Ok false)) /\
  check_junit (only_file (pom [dependency "commons-io" "2.6"; dependency "junit" "4.13"]))
    DataCollector "pom.xml" = Ok true /\
  check_junit (only_file (pom [dependency "commons-io" "2.6"; dependency "junit" "3.8"]))
    DataCollector "pom.xml" = Ok false /\
  check_junit (only_file (pom [dependency "junit" "3.8"; dependency "junit" "4.13"]))
    DataCollector "pom.xml" = Ok false /\
  check_junit (only_file (pom [dependency "junit" "4.13"; dependency "junit" "3.8"]))
    DataCollector "pom.xml" = Ok true /\
  check_junit (only_file (pom [dependency "commons-io" "2.6"; dependency "guava" "4.0"]))
    DataCollector "pom.xml" = Ok false.
Proof.
  split; [|repeat split; vm_compute; reflexivity].
  intros parse cls pom_file root Hroot. split.
  - intros pre d post a p v t b Hdeps Hpre Hs Hv Hb Hp.
    rewrite (@check_junit_decides parse _ pom_file root pre d post a p v t
               Hroot Hdeps Hpre Hs Hv Hb). exact Hp.
  - unfold check_junit. rewrite Hroot. apply for_d_in_all_passed.
Qed.

Lemma check_junit_first_match_witness :
  check_junit (only_file (pom [dependency "commons-io" "2.6"; dependency "junit" "4.13";
                               dependency "junit" "3.8"]))
    DataCollector "pom.xml" = Ok true /\
  check_junit (only_file (pom [dependency "commons-io" "2.6"])) DataCollector "pom.xml"
  = Ok false.
Proof.
  split.
  - apply (proj1 (proj1 check_junit_first_match
                    (only_file (pom [dependency "commons-io" "2.6"; dependency "junit" "4.13";
                                     dependency "junit" "3.8"]))
                    DataCollector "pom.xml" _ eq_refl)
             [dependency "commons-io" "2.6"] (dependency "junit" "4.13")
             [dependency "junit" "3.8"] "junit" junit_requirement "4.13" "4" true).
    + reflexivity.
    + repeat constructor. eexists. split; reflexivity.
    + eexists. repeat split; reflexivity.
    + eexists. split; reflexivity.
    + split; [reflexivity | right; now exists "13"].
    + reflexivity.
  - apply (proj2 (proj1 check_junit_first_match
                    (only_file (pom [dependency "commons-io" "2.6"]))
                    DataCollector "pom.xml" _ eq_refl)).
    repeat constructor. eexists. split; reflexivity.
Defined.

(** C4: every version string has one part in front of its first dot, and at
    the dependency that decides, the answer of [check_junit] is the predicate
    applied to that part, for every predicate the table may hold: the version
    reaches the predicate as this token and in no other form. *)
Theorem check_junit_major_token :
  (forall v, exists t,
     before_first_dot v t /\ major_version (Some v) = Ok t /\
     forall t', before_first_dot v t' -> t' = t) /\
  (forall (parse : string -> result Element) cls pom_file root pre d post a p v t,
     parse pom_file = Ok root ->
     findall root (xmlns "dependency") = (pre ++ d :: post)%list ->
     Forall (passed_over cls) pre ->
     selected cls d a p -> has_version d v -> before_first_dot v t ->
     check_junit parse cls pom_file = p t).
Proof.
  split.
  - intros v. destruct (before_first_dot_exists v) as (t & H).
    exists t. split; [exact H | split; [now apply major_version_before_dot|]].
    intros t' H'. exact (before_first_dot_unique H' H).
  - intros parse cls pom_file root pre d post a p v t.
    apply check_junit_decides.
Qed.

Lemma check_junit_major_token_witness :
  check_junit (only_file (pom [dependency "commons-io" "2.6"; dependency "junit" "4.13"]))
    DataCollector "pom.xml" = junit_requirement "4".
Proof.
  apply (proj2 check_junit_major_token
           (only_file (pom [dependency "commons-io" "2.6"; dependency "junit" "4.13"]))
           DataCollector "pom.xml" _
           [dependency "commons-io" "2.6"] (dependency "junit" "4.13") []
           "junit" junit_requirement "4.13" "4" eq_refl eq_refl).
  - repeat constructor. eexists. split; reflexivity.
  - eexists. repeat split; reflexivity.
  - eexists. split; reflexivity.
  - split; [reflexivity | right; now exists "13"].
Defined.

(** C9: when the token in front of the first dot of the version of the
    first matching dependency is not text that [int] reads as a number,
    [check_junit] raises [ValueError] and returns nothing.  Any token with a
    character that is no digit, white space, sign or underscore is such a
    token; the Maven placeholder "${junit.version}" gives the token
    "${junit". *)
Theorem check_junit_not_a_number :
  (forall (parse : string -> result Element) pom_file root pre d post a p v t,
     parse pom_file = Ok root ->
     findall root (xmlns "dependency") = (pre ++ d :: post)%list ->
     Forall (passed_over DataCollector) pre ->
     selected DataCollector d a p -> has_version d v -> before_first_dot v t ->
     ~ decimal_literal t ->
     check_junit parse DataCollector pom_file = Raise ValueError) /\
  (forall t, all numeric_char t = false -> ~ decimal_literal t) /\
  before_first_dot "${junit.version}" "${junit" /\
  check_junit (only_file (pom [dependency "commons-io" "2.6";
                               dependency "junit" "${junit.version}"]))
    DataCollector "pom.xml" = Raise ValueError.
Proof.
  split; [|split; [|split]].
  - intros parse pom_file root pre d post a p v t Hroot Hdeps Hpre Hs Hv Hb Hn.
    rewrite (@check_junit_decides parse _ pom_file root pre d post a p v t
               Hroot Hdeps Hpre Hs Hv Hb).
    destruct Hs as (art & _ & _ & Hp). apply junit_is_the_key in Hp as [_ ->].
    now apply junit_requirement_raises.
  - intros t H L. apply IntFacts.literal_numeric in L. congruence.
  - split; [reflexivity | right; now exists "version}"].
  - vm_compute. reflexivity.
Qed.

Lemma check_junit_not_a_number_witness :
  check_junit (only_file (pom [dependency "commons-io" "2.6";
                               dependency "junit" "4-SNAPSHOT"]))
    DataCollector "pom.xml" = Raise ValueError /\
  ~ decimal_literal "4-SNAPSHOT".
Proof.
  split; [|apply (proj1 (proj2 check_junit_not_a_number) "4-SNAPSHOT"); reflexivity].
  apply (proj1 check_junit_not_a_number
           (only_file (pom [dependency "commons-io" "2.6"; dependency "junit" "4-SNAPSHOT"]))
           "pom.xml" _
           [dependency "commons-io" "2.6"] (dependency "junit" "4-SNAPSHOT") []
           "junit" junit_requirement "4-SNAPSHOT" "4-SNAPSHOT" eq_refl eq_refl).
  - repeat constructor. eexists. split; reflexivity.
  - eexists. repeat split; reflexivity.
  - eexists. split; reflexivity.
  - split; [reflexivity | now left].
  - intros [z H]. vm_compute in H. discriminate H.
Defined.

(** C6, as stated, fails: the document below parses, its one dependency has
    an artifactId child and a version child, and [check_junit] raises. *)
Lemma check_junit_raises_on_placeholder :
  let doc := pom [dependency "junit" "${junit.version}"] in
  only_file doc "pom.xml" = Ok doc /\
  (forall d, In d (findall doc (xmlns "dependency")) ->
             find d (xmlns "artifactId") <> None /\ find d (xmlns "version") <> None) /\
  check_junit (only_file doc) DataCollector "pom.xml" = Raise ValueError.
Proof.
  cbv zeta. split; [reflexivity | split].
  - intros d [<- | []]. split; discriminate.
  - vm_compute. reflexivity.
Qed.

(** C6, amended: [check_junit] raises exactly when reading the document
    raises, or when, with the dependencies in document order and all those
    in front passed over, the body of the loop raises at a dependency: it has
    no artifactId child; or its artifact identifier is a key and it has no
    version child, or a version child without text, or the predicate raises
    on the token in front of the first dot.  The predicate of the table
    raises exactly on the tokens that [int] does not read as a number, and
    then it is [ValueError]. *)
Theorem check_junit_raises_exactly :
  (forall (parse : string -> result Element) cls pom_file e,
     check_junit parse cls pom_file = Raise e <->
     parse pom_file = Raise e \/
     exists root pre d post,
       parse pom_file = Ok root /\
       findall root (xmlns "dependency") = (pre ++ d :: post)%list /\
       Forall (passed_over cls) pre /\ fails_at cls d e) /\
  (forall a p t e,
     dict_get (REQUIREMENTS DataCollector) a = Some p ->
     (p t = Raise e <-> e = ValueError /\ ~ decimal_literal t)).
Proof.
  split.
  - intros parse cls pom_file e. unfold check_junit.
    destruct (parse pom_file) as [root|e'] eqn:Hroot; simpl.
    + rewrite for_d_in_raises. split.
      * intros (pre & d & post & H). right. now exists root, pre, d, post.
      * intros [H | (root' & pre & d & post & [= <-] & H)]; [discriminate|].
        now exists pre, d, post.
    + split; [intros [= ->]; now left|].
      intros [[= ->] | (root & pre & d & post & H & _)]; [reflexivity | discriminate].
  - intros a p t e Hp. apply junit_is_the_key in Hp as [_ ->].
    apply junit_requirement_raises.
Qed.

Lemma check_junit_raises_exactly_witness :
  (only_file (pom [dependency_without_version "junit"]) "pom.xml" = Raise AttributeError \/
   exists root pre d post,
     only_file (pom [dependency_without_version "junit"]) "pom.xml" = Ok root /\
     findall root (xmlns "dependency") = (pre ++ d :: post)%list /\
     Forall (passed_over DataCollector) pre /\ fails_at DataCollector d AttributeError) /\
  (junit_requirement "${junit" = Raise ValueError <->
   ValueError = ValueError /\ ~ decimal_literal "${junit").
Proof.
  split.
  - apply (proj1 (proj1 check_junit_raises_exactly
                    (only_file (pom [dependency_without_version "junit"]))
                    DataCollector "pom.xml" AttributeError)).
    vm_compute. reflexivity.
  - apply (proj2 check_junit_raises_exactly "junit" junit_requirement "${junit" ValueError).
    reflexivity.
Defined.

(** C10: a dependency whose artifact identifier is no key of the table is
    passed over without its version being looked at: put any other
    dependency with the same artifactId child in its place, with a version
    child or without, and [check_junit] gives the same result, which is the
    result of the loop over the other dependencies alone. *)
Theorem check_junit_skips_version_of_others :
  forall (parse : string -> result Element) cls f f' root root' pre d d' post,
    parse f = Ok root -> parse f' = Ok root' ->
    findall root (xmlns "dependency") = (pre ++ d :: post)%list ->
    findall root' (xmlns "dependency") = (pre ++ d' :: post)%list ->
    passed_over cls d ->
    find d' (xmlns "artifactId") = find d (xmlns "artifactId") ->
    check_junit parse cls f' = check_junit parse cls f /\
    check_junit parse cls f = for_d_in cls (pre ++ post)%list.
Proof.
  intros parse cls f f' root root' pre d d' post Hr Hr' Hd Hd' Hp Hart.
  assert (Hp' : passed_over cls d').
  { destruct Hp as (art & Hf & Hk). exists art. now rewrite Hart. }
  unfold check_junit. rewrite Hr, Hr'. simpl. rewrite Hd, Hd'. split.
  - apply for_d_in_app. now rewrite !for_d_in_passed.
  - apply for_d_in_app. now apply for_d_in_passed.
Qed.

Lemma check_junit_skips_version_of_others_witness :
  check_junit (two_files (pom [dependency "guava" "31.1-jre"; dependency "junit" "4.13"])
                         (pom [dependency_without_version "guava"; dependency "junit" "4.13"]))
    DataCollector "b/pom.xml"
  = check_junit (two_files (pom [dependency "guava" "31.1-jre"; dependency "junit" "4.13"])
                           (pom [dependency_without_version "guava"; dependency "junit" "4.13"]))
      DataCollector "a/pom.xml" /\
  check_junit (two_files (pom [dependency "guava" "31.1-jre"; dependency "junit" "4.13"])
                         (pom [dependency_without_version "guava"; dependency "junit" "4.13"]))
    DataCollector "a/pom.xml"
  = for_d_in DataCollector ([] ++ [dependency "junit" "4.13"])%list.
Proof.
  apply (@check_junit_skips_version_of_others
           (two_files (pom [dependency "guava" "31.1-jre"; dependency "junit" "4.13"])
                      (pom [dependency_without_version "guava"; dependency "junit" "4.13"]))
           DataCollector "a/pom.xml" "b/pom.xml" _ _
           [] (dependency "guava" "31.1-jre") (dependency_without_version "guava")
           [dependency "junit" "4.13"] eq_refl eq_refl eq_refl eq_refl).
  - eexists. split; reflexivity.
  - reflexivity.
Defined.

(** ** Sample runs *)

Example int_samples :
  map Int.int [" 4"; "+4"; "4_0"; "04"; "-4"; "4_"; "_4"; "4__0"; ""; "+ 4"; "4 x"]
  = [Ok 4%Z; Ok 4%Z; Ok 40%Z; Ok 4%Z; Ok (-4)%Z; Raise ValueError; Raise ValueError;
     Raise ValueError; Raise ValueError; Raise ValueError; Raise ValueError].
Proof. vm_compute. reflexivity. Qed.

Example parse_samples :
  map parse_github_url
    ["https://github.com/foo/.git"; "https://github.com/foo/bar.git.git";
     "https://github.com//bar.git"; "https://github.com/foo/";
     "https://github.com/foo/bar/extra.git"; "http://github.com/foo/bar"]
  = [Some (Some "foo", Some ".git"); Some (Some "foo", Some "bar.git");
     None; None; Some (Some "foo", Some "bar/extra"); None].
Proof. vm_compute. reflexivity. Qed.

Example split_samples :
  map (split "_") [""; "a_b_c"; "_"; "ab"] = [[""]; ["a"; "b"; "c"]; [""; ""]; ["ab"]].
Proof. reflexivity. Qed.

Example check_junit_unreadable :
  check_junit (fun _ => Raise ParseError) DataCollector "pom.xml" = Raise ParseError.
Proof. reflexivity. Qed.

Example check_junit_empty_version :
  check_junit
    (only_file (pom [Elem (xmlns "dependency") None
                       [Elem (xmlns "artifactId") (Some "junit") [];
                        Elem (xmlns "version") None []]]))
    DataCollector "pom.xml" = Raise AttributeError.
Proof. reflexivity. Qed.

Example findall_document_order :
  map (fun d => text_of (find d (xmlns "artifactId")))
    (findall
       (Elem (xmlns "dependency") None
          [Elem (xmlns "artifactId") (Some "root") [];
           Elem (xmlns "dependencies") None
             [Elem (xmlns "dependency") None
                [Elem (xmlns "artifactId") (Some "a") [];
                 Elem (xmlns "dependency") None [Elem (xmlns "artifactId") (Some "b") []]];
              Elem (xmlns "dependency") None
                [Elem (xmlns "x") None [Elem (xmlns "artifactId") (Some "deep") []];
                 Elem (xmlns "artifactId") None [];
                 Elem (xmlns "artifactId") (Some "second") []]]])
       (xmlns "dependency"))
  = [Ok (Some "a"); Ok (Some "b"); Ok None].
Proof. reflexivity. Qed.

(** ** Further properties: names and URLs *)

Module MoreFacts.
Import Re.

Lemma append_inv_head (a x y : string) : a ++ x = a ++ y -> x = y.
Proof. induction a as [|c a IH]; simpl; [auto | intros [= H]; auto]. Qed.

Lemma parse_repo_name_first_two (a rest : string) :
  free_of "_" a = true ->
  exists b,
    free_of "_" b = true /\
    (rest = b \/ exists tail, rest = b ++ String "_" tail) /\
    parse_repo_name (a ++ String "_" rest)
    = Ok ("https://github.com/" ++ a ++ "/" ++ b ++ ".git").
Proof.
  intros Fa. destruct (first_piece "_" rest) as (b & Fb & Hrest).
  exists b. repeat split; try assumption.
  unfold parse_repo_name. rewrite (split_sep _ _ rest Fa).
  destruct Hrest as [-> | (tail & ->)].
  - now rewrite (split_free _ _ Fb).
  - now rewrite (split_sep _ _ tail Fb).
Qed.

(** The loop returns [b] exactly when every dependency is passed over and
    [b] is false, or the predicate returns [b] at the first one that is not. *)
Lemma for_d_in_returns (cls : DataCollectorClass) (l : list Element) (b : bool) :
  for_d_in cls l = Ok b <->
  (b = false /\ Forall (passed_over cls) l) \/
  (exists pre d post a p v t,
     l = (pre ++ d :: post)%list /\ Forall (passed_over cls) pre /\
     selected cls d a p /\ has_version d v /\ before_first_dot v t /\ p t = Ok b).
Proof.
  split.
  - induction l as [|d l IH]; intros H.
    + left. injection H as <-. now split.
    + destruct (body_cases cls d) as [Hp | [(e & Hf) | Hok]].
      * rewrite (for_d_in_passed l Hp) in H.
        destruct (IH H) as [[-> Hall] | (pre & d' & post & a & p & v & t & -> & Hpre & R)].
        -- left. split; [reflexivity | now constructor].
        -- right. exists (d :: pre), d', post, a, p, v, t.
           split; [reflexivity | split; [now constructor | exact R]].
      * rewrite (for_d_in_fails l Hf) in H. discriminate.
      * destruct Hok as (a & p & v & t & b' & Hs & Hv & Hb & Hp).
        rewrite (for_d_in_decides l Hs Hv Hb) in H.
        right. exists [], d, l, a, p, v, t.
        split; [reflexivity|]. split; [constructor|].
        exact (conj Hs (conj Hv (conj Hb H))).
  - intros [[-> Hall] | (pre & d & post & a & p & v & t & -> & Hpre & Hs & Hv & Hb & Hp)].
    + now apply for_d_in_all_passed.
    + rewrite (for_d_in_skip _ Hpre), (for_d_in_decides post Hs Hv Hb). exact Hp.
Qed.

End MoreFacts.

(** X1: a URL in its canonical form, with ".git" at the end, parses to its
    user and repo; the project name made of the two leads back to the same
    URL exactly when neither of them has an underscore in it. *)
Theorem project_name_leads_back :
  forall u r,
    u <> "" -> free_of "/" u = true -> r <> "" -> free_of Re.LF r = true ->
    parse_github_url ("https://github.com/" ++ u ++ "/" ++ r ++ ".git")
    = Some (Some u, Some r) /\
    (parse_repo_name (project_name u r)
     = Ok ("https://github.com/" ++ u ++ "/" ++ r ++ ".git") <->
     free_of "_" u = true /\ free_of "_" r = true).
Proof.
  intros u r Hu Su Hr Lr. split; [now apply UrlFacts.parse_strips_git|].
  unfold project_name. change ("_" ++ r) with (String "_" r). split.
  - intros H. destruct (free_of "_" u) eqn:Fu.
    + destruct (MoreFacts.parse_repo_name_first_two u r Fu) as (b & Fb & Hrest & E).
      rewrite E in H. injection H as H.
      apply MoreFacts.append_inv_head in H.
      injection H as H. apply append_inv_tail in H. subst b. now split.
    + exfalso. destruct (first_sep _ _ Fu) as (a & u2 & -> & Fa).
      rewrite append_assoc in H. simpl in H.
      destruct (MoreFacts.parse_repo_name_first_two a (u2 ++ String "_" r) Fa)
        as (b & Fb & Hrest & E).
      rewrite E in H. injection H as H. rewrite append_assoc in H.
      apply MoreFacts.append_inv_head in H. discriminate H.
  - intros [Fu Fr].
    destruct (MoreFacts.parse_repo_name_first_two u r Fu) as (b & Fb & Hrest & E).
    rewrite E. destruct Hrest as [<- | (tail & ->)]; [reflexivity|].
    exfalso. unfold free_of in Fr. rewrite all_app in Fr. simpl in Fr.
    rewrite andb_false_r in Fr. discriminate.
Qed.

Lemma project_name_leads_back_witness :
  parse_github_url ("https://github.com/" ++ "apache" ++ "/" ++ "commons-io" ++ ".git")
  = Some (Some "apache", Some "commons-io") /\
  (parse_repo_name (project_name "apache" "commons-io")
   = Ok ("https://github.com/" ++ "apache" ++ "/" ++ "commons-io" ++ ".git") <->
   free_of "_" "apache" = true /\ free_of "_" "commons-io" = true).
Proof.
  apply (@project_name_leads_back "apache" "commons-io");
    [discriminate | reflexivity | discriminate | reflexivity].
Defined.

(** X2: with the table of the class, [check_junit] returns true exactly
    when the document parses, every dependency in front of the first one
    named junit is passed over, and that one has a version whose part in
    front of the first dot is read by [int] as 4. *)
Theorem check_junit_passes_exactly :
  forall (parse : string -> result Element) pom_file,
    check_junit parse DataCollector pom_file = Ok true <->
    exists root pre d post v t,
      parse pom_file = Ok root /\
      findall root (xmlns "dependency") = (pre ++ d :: post)%list /\
      Forall (passed_over DataCollector) pre /\
      selected DataCollector d "junit" junit_requirement /\
      has_version d v /\ before_first_dot v t /\ Int.int t = Ok 4%Z.
Proof.
  intros parse pom_file. unfold check_junit.
  destruct (parse pom_file) as [root|e] eqn:Hroot; simpl.
  - rewrite MoreFacts.for_d_in_returns. split.
    + intros [[H _] | (pre & d & post & a & p & v & t & Hl & Hpre & Hs & Hv & Hb & Hp)];
        [discriminate|].
      assert (K := Hs). destruct K as (art & _ & _ & K).
      apply junit_is_the_key in K as [-> ->].
      exists root, pre, d, post, v, t.
      refine (conj eq_refl (conj Hl (conj Hpre (conj Hs (conj Hv (conj Hb _)))))).
      unfold junit_requirement in Hp. destruct (Int.int t) as [n|e]; [|discriminate].
      simpl in Hp. injection Hp as Hp. apply Z.eqb_eq in Hp. now subst n.
    + intros (root' & pre & d & post & v & t & [= <-] & Hl & Hpre & Hs & Hv & Hb & Hi).
      right. exists pre, d, post, "junit", junit_requirement, v, t.
      refine (conj Hl (conj Hpre (conj Hs (conj Hv (conj Hb _))))).
      unfold junit_requirement. now rewrite Hi.
  - split; [discriminate|].
    intros (root & pre & d & post & v & t & H & _). discriminate.
Qed.

Lemma check_junit_passes_exactly_witness :
  exists root pre d post v t,
    only_file (pom [dependency "guava" "31.1-jre"; dependency "junit" "4.13.2"]) "pom.xml"
    = Ok root /\
    findall root (xmlns "dependency") = (pre ++ d :: post)%list /\
    Forall (passed_over DataCollector) pre /\
    selected DataCollector d "junit" junit_requirement /\
    has_version d v /\ before_first_dot v t /\ Int.int t = Ok 4%Z.
Proof.
  apply (proj1 (check_junit_passes_exactly
                  (only_file (pom [dependency "guava" "31.1-jre";
                                   dependency "junit" "4.13.2"])) "pom.xml")).
  vm_compute. reflexivity.
Defined.



(** ** Further properties: dictionaries and the test-method tables *)

Module DictFacts.
Import Dict.

Section Values.

Variable V : Type.

Lemma get_set_same (k : string) (v : V) (d : t V) : get k (set k v d) = Some v.
Proof.
  induction d as [|[k' v'] d IH]; simpl.
  - now rewrite String.eqb_refl.
  - destruct (String.eqb k k') eqn:E; simpl; rewrite E; [reflexivity | exact IH].
Qed.

Lemma get_set_other (k k' : string) (v : V) (d : t V) :
  String.eqb k k' = false -> get k (set k' v d) = get k d.
Proof.
  intros Hk. induction d as [|[k2 v2] d IH]; simpl.
  - now rewrite Hk.
  - destruct (String.eqb k' k2) eqn:E; simpl.
    + apply String.eqb_eq in E. subst k2. now rewrite Hk.
    + destruct (String.eqb k k2); [reflexivity | exact IH].
Qed.

Lemma get_None_keys (k : string) (d : t V) : get k d = None <-> ~ In k (keys d).
Proof.
  induction d as [|[k' v'] d IH]; simpl; [tauto|].
  destruct (String.eqb k k') eqn:E.
  - apply String.eqb_eq in E. subst k'. split; [discriminate | tauto].
  - apply String.eqb_neq in E. rewrite IH. split; [intros H [?|?]; congruence | tauto].
Qed.

Lemma keys_set (k : string) (v : V) (d : t V) :
  keys (set k v d) = match get k d with
                     | Some _ => keys d
                     | None => (keys d ++ [k])%list
                     end.
Proof.
  unfold keys. induction d as [|[k' v'] d IH]; simpl; [reflexivity|].
  destruct (String.eqb k k') eqn:E; simpl; [reflexivity|].
  rewrite IH. now destruct (get k d).
Qed.

Lemma NoDup_keys_set (k : string) (v : V) (d : t V) :
  NoDup (keys d) -> NoDup (keys (set k v d)).
Proof.
  intros H. rewrite keys_set. destruct (get k d) eqn:E; [exact H|].
  apply get_None_keys in E.
  apply NoDup_rev in H. rewrite <- (rev_involutive (keys d ++ [k])).
  apply NoDup_rev. rewrite rev_app_distr. simpl. constructor; [|exact H].
  now rewrite <- in_rev.
Qed.

(** A key that is new goes to the end. *)
Lemma set_new (k : string) (v : V) (d : t V) :
  ~ In k (keys d) -> set k v d = (d ++ [(k, v)])%list.
Proof.
  induction d as [|[k' v'] d IH]; simpl; intros H; [reflexivity|].
  destruct (String.eqb k k') eqn:E.
  - apply String.eqb_eq in E. subst k'. exfalso. apply H. now left.
  - rewrite IH; [reflexivity|]. intros Hin. apply H. now right.
Qed.

End Values.

Section Lists.

Variable V : Type.

(** [append_at] by a walk through the entries. *)

Lemma append_at_cons (k k' : string) (x : V) (l : list V) (d : t (list V)) :
  append_at k x ((k', l) :: d)
  = if String.eqb k k' then (k', (l ++ [x])%list) :: d
    else (k', l) :: append_at k x d.
Proof.
  unfold append_at. cbn [get]. destruct (String.eqb k k') eqn:E.
  - cbn [set]. now rewrite E.
  - destruct (get k d); cbn [set]; now rewrite E.
Qed.

Lemma get_append_at (c k : string) (x : V) (d : t (list V)) :
  get c (append_at k x d)
  = if String.eqb c k
    then Some (match get k d with Some l => l ++ [x] | None => [x] end)%list
    else get c d.
Proof.
  induction d as [|[k' l] d IH].
  - simpl. now destruct (String.eqb c k).
  - rewrite append_at_cons. simpl. destruct (String.eqb k k') eqn:E.
    + apply String.eqb_eq in E. subst k'. simpl. now destruct (String.eqb c k).
    + simpl. destruct (String.eqb c k') eqn:E'.
      * apply String.eqb_eq in E'. subst k'.
        rewrite String.eqb_sym in E. now rewrite E.
      * exact IH.
Qed.

Lemma keys_append_at (k : string) (x : V) (d : t (list V)) :
  NoDup (keys d) -> NoDup (keys (append_at k x d)).
Proof. unfold append_at. destruct (get k d); apply NoDup_keys_set. Qed.

(** The number of values in a table of lists. *)
Lemma values_append_at (k : string) (x : V) (d : t (list V)) :
  List.length (concat (map snd (append_at k x d)))
  = S (List.length (concat (map snd d))).
Proof.
  induction d as [|[k' l] d IH]; [reflexivity|].
  rewrite append_at_cons. destruct (String.eqb k k'); simpl.
  - rewrite !length_app. simpl. lia.
  - rewrite !length_app, IH. lia.
Qed.

End Lists.

End DictFacts.

Module TableFacts.
Import Dict DictFacts.

Lemma get_fold (c : string) (ml : list method_data) :
  forall d,
    get c (fold_left add_test_method ml d)
    = match get c d with
      | Some l => Some (l ++ ids_of_class c ml)%list
      | None => match ids_of_class c ml with
                | [] => None
                | l => Some l
                end
      end.
Proof.
  induction ml as [|m ml IH]; intros d.
  - simpl. destruct (get c d); [now rewrite app_nil_r | reflexivity].
  - simpl fold_left. rewrite IH. unfold add_test_method, ids_of_class. simpl filter.
    set (ids := map m_id (filter _ ml)).
    destruct (in_test_code m); simpl andb; [|reflexivity].
    rewrite get_append_at. destruct (String.eqb c (m_class_name m)) eqn:E; [|reflexivity].
    apply String.eqb_eq in E. subst c. simpl map.
    destruct (get (m_class_name m) d); [now rewrite <- app_assoc | reflexivity].
Qed.

Lemma keys_fold (ml : list method_data) :
  forall d, NoDup (keys d) -> NoDup (keys (fold_left add_test_method ml d)).
Proof.
  induction ml as [|m ml IH]; intros d H; [exact H|].
  simpl. apply IH. unfold add_test_method. destruct (in_test_code m); [|exact H].
  now apply keys_append_at.
Qed.

Lemma values_fold (ml : list method_data) :
  forall d,
    List.length (concat (map snd (fold_left add_test_method ml d)))
    = (List.length (concat (map snd d)) + List.length (filter in_test_code ml))%nat.
Proof.
  induction ml as [|m ml IH]; intros d; simpl; [lia|].
  rewrite IH. unfold add_test_method. destruct (in_test_code m); simpl.
  - rewrite values_append_at. lia.
  - reflexivity.
Qed.

End TableFacts.

Module PathFacts.
Import Py.

Lemma last_item_cons (A : Type) (a : A) (l : list A) :
  l <> [] -> last_item (a :: l) = last_item l.
Proof.
  intros H. unfold last_item. simpl.
  destruct (rev l) as [|x r] eqn:E; [|reflexivity].
  exfalso. apply H. rewrite <- (rev_involutive l), E. reflexivity.
Qed.

Lemma last_item_In (A : Type) (l : list A) :
  l <> [] -> exists x, last_item l = Ok x /\ In x l.
Proof.
  intros H. unfold last_item. destruct (rev l) as [|x r] eqn:E.
  - exfalso. apply H. rewrite <- (rev_involutive l), E. reflexivity.
  - exists x. split; [reflexivity|]. apply in_rev. rewrite E. now left.
Qed.

Lemma split_cons (sep : ascii) (s : string) :
  exists p ps, Str.split sep s = p :: ps.
Proof.
  destruct s as [|c s]; simpl; [now exists "", []|].
  destruct (Ascii.eqb c sep); [now eexists; eexists|].
  destruct (Str.split sep s); now eexists; eexists.
Qed.

Lemma split_pieces_free (sep : ascii) (s : string) :
  Forall (fun p => free_of sep p = true) (Str.split sep s).
Proof.
  induction s as [|c s IH]; simpl; [now repeat constructor|].
  destruct (Ascii.eqb c sep) eqn:E; [now constructor|].
  destruct (Str.split sep s) as [|p ps].
  - repeat constructor. unfold free_of. simpl. now rewrite E.
  - inversion IH; subst. constructor; [|assumption].
    unfold free_of in *. simpl. now rewrite E.
Qed.

(** The last piece of a path is what stands behind its last separator. *)
Lemma split_last (sep : ascii) (x b : string) :
  free_of sep b = true ->
  exists p ps, Str.split sep (x ++ String sep b) = p :: ps /\ ps <> [] /\
               last_item ps = Ok b.
Proof.
  intros Fb. induction x as [|c x (p & ps & E & Hne & Hl)]; simpl.
  - rewrite Ascii.eqb_refl, (split_free _ _ Fb). exists "", [b].
    repeat split; discriminate.
  - rewrite E. destruct (Ascii.eqb c sep).
    + exists "", (p :: ps). repeat split; [discriminate|].
      now rewrite last_item_cons.
    + now exists (String c p), ps.
Qed.

Lemma startswith_other (c c' : ascii) (p s : string) :
  Ascii.eqb c c' = false -> startswith (String c p) (String c' s) = false.
Proof. intros H. unfold startswith. simpl. now rewrite H. Qed.

(** In front of the first ".java" of a name without other dots stands the
    first piece. *)
Lemma split_at_java (base rest : string) :
  free_of "." base = true ->
  exists pieces, split_at ".java" 0 (base ++ ".java" ++ rest) = base :: pieces.
Proof.
  unfold free_of. induction base as [|c base IH]; intros H.
  - now eexists.
  - simpl in H. apply andb_true_iff in H as [Hc Hb].
    destruct (IH Hb) as (pieces & E). exists pieces.
    change (String c base ++ ".java" ++ rest)
      with (String c (base ++ ".java" ++ rest)).
    cbn [split_at]. rewrite startswith_other.
    + now rewrite E.
    + apply negb_true_iff in Hc. now rewrite Ascii.eqb_sym.
Qed.

Lemma split_at_all (p : ascii -> bool) (sep : string) (s : string) :
  forall skip, all p s = true ->
               Forall (fun x => all p x = true) (split_at sep skip s).
Proof.
  induction s as [|c s IH]; intros skip H; simpl; [now repeat constructor|].
  simpl in H. apply andb_true_iff in H as [Hc Hs].
  destruct skip as [|k]; [|now apply IH].
  destruct (startswith sep (String c s)); [constructor; [reflexivity | now apply IH]|].
  specialize (IH 0 Hs). destruct (split_at sep 0 s) as [|x xs].
  - repeat constructor. simpl. now rewrite Hc.
  - inversion IH; subst. constructor; [|assumption]. simpl. now rewrite Hc.
Qed.

Lemma split_at_cons (sep s : string) (skip : nat) :
  exists x xs, split_at sep skip s = x :: xs.
Proof.
  revert skip. induction s as [|c s IH]; intros skip; simpl; [now eexists; eexists|].
  destruct skip as [|k]; [|apply IH].
  destruct (startswith sep (String c s)); [now eexists; eexists|].
  destruct (split_at sep 0 s); now eexists; eexists.
Qed.

Lemma class_name_of_path_total (path : string) :
  exists c, class_name_of_path path = Ok c /\ free_of "/" c = true.
Proof.
  unfold class_name_of_path.
  destruct (split_cons "/" path) as (p & ps & E).
  destruct (@last_item_In _ (Str.split "/" path)) as (f & Hf & Hin); [now rewrite E|].
  rewrite Hf. simpl.
  assert (Ff : free_of "/" f = true).
  { assert (H := split_pieces_free "/" path). rewrite Forall_forall in H. now apply H. }
  destruct (split_at_cons ".java" f 0) as (x & xs & Ex). rewrite Ex. simpl.
  exists x. split; [reflexivity|].
  assert (H := @split_at_all _ ".java" f 0 Ff). rewrite Ex in H. now inversion H.
Qed.

Lemma class_name_of_file (base : string) :
  free_of "/" base = true -> free_of "." base = true ->
  class_name_of_path (base ++ ".java") = Ok base.
Proof.
  intros Fs Fd. unfold class_name_of_path.
  rewrite split_free.
  - simpl. destruct (@split_at_java base "" Fd) as (pieces & E).
    simpl in E. now rewrite E.
  - unfold free_of in *. now rewrite all_app, Fs.
Qed.

Lemma class_name_of_dir_file (dir base : string) :
  free_of "/" base = true -> free_of "." base = true ->
  class_name_of_path (dir ++ "/" ++ base ++ ".java") = Ok base.
Proof.
  intros Fs Fd. unfold class_name_of_path.
  assert (F : free_of "/" (base ++ ".java") = true).
  { unfold free_of in *. now rewrite all_app, Fs. }
  change ("/" ++ base ++ ".java") with (String "/" (base ++ ".java")).
  destruct (@split_last "/" dir (base ++ ".java") F) as (p & ps & E & Hne & Hl).
  rewrite E, (@last_item_cons _ p ps Hne), Hl. simpl.
  destruct (@split_at_java base "" Fd) as (pieces & E').
  simpl in E'. now rewrite E'.
Qed.

End PathFacts.

(** X4: in the table of [collect_test_method], the entry of a class is the
    list of the ids of the methods of that class whose path says test
    code ("src/test" or "Test.java" in it), in the order of the method list;
    a class with no such method has no entry. *)
Theorem test_class_2_methods_groups :
  forall method_list c,
    Dict.get c (test_class_2_methods method_list)
    = match ids_of_class c method_list with
      | [] => None
      | ids => Some ids
      end.
Proof.
  intros method_list c. unfold test_class_2_methods.
  now rewrite TableFacts.get_fold.
Qed.

(** X5: the table of [collect_test_method] lists no class twice, and it
    holds as many ids as there are methods in test code: none is lost and
    none is listed twice. *)
Theorem test_class_2_methods_keeps_all :
  forall method_list,
    NoDup (Dict.keys (test_class_2_methods method_list)) /\
    List.length (concat (map snd (test_class_2_methods method_list)))
    = List.length (filter in_test_code method_list).
Proof.
  intros method_list. unfold test_class_2_methods. split.
  - apply TableFacts.keys_fold. constructor.
  - now rewrite TableFacts.values_fold.
Qed.

(** X6: the class name that [collect_test_methods_with_shas] reads off a
    path is always there and has no slash in it; for a Java file whose name
    in front of ".java" has no dot, below a directory or not, it is that
    name. *)
Theorem class_name_of_path_is_file_name :
  (forall path, exists c, class_name_of_path path = Ok c /\ free_of "/" c = true) /\
  (forall dir base,
     free_of "/" base = true -> free_of "." base = true ->
     class_name_of_path (dir ++ "/" ++ base ++ ".java") = Ok base /\
     class_name_of_path (base ++ ".java") = Ok base).
Proof.
  split; [apply PathFacts.class_name_of_path_total|].
  intros dir base Fs Fd. split.
  - now apply PathFacts.class_name_of_dir_file.
  - now apply PathFacts.class_name_of_file.
Qed.

Lemma class_name_of_path_is_file_name_witness :
  class_name_of_path ("src/test/java/org/example" ++ "/" ++ "ParserTest" ++ ".java")
  = Ok "ParserTest" /\
  class_name_of_path ("ParserTest" ++ ".java") = Ok "ParserTest".
Proof.
  apply (proj2 class_name_of_path_is_file_name "src/test/java/org/example" "ParserTest");
    reflexivity.
Defined.

(** X7: [collect_test_methods_with_shas] never raises, and its table is the
    table of [collect_test_method] for the same methods, each method in test
    code with the class name read off its path. *)
Theorem test_class_2_methods_with_shas_by_path :
  forall method_list,
    exists renamed,
      Forall2 named_by_path method_list renamed /\
      test_class_2_methods_with_shas method_list = Ok (test_class_2_methods renamed).
Proof.
  intros method_list. unfold test_class_2_methods_with_shas, test_class_2_methods.
  generalize (@nil (string * list Z)). induction method_list as [|m ml IH]; intros d.
  - exists []. split; [constructor | reflexivity].
  - simpl. destruct (in_test_code m) eqn:Ht.
    + destruct (PathFacts.class_name_of_path_total (m_path m)) as (c & Ec & _).
      rewrite Ec. simpl.
      destruct (IH (Dict.append_at c (m_id m) d)) as (renamed & Hr & E).
      exists (MethodData (m_path m) (m_id m) c :: renamed). split.
      * constructor; [|exact Hr]. now repeat split.
      * simpl. unfold add_test_method at 2. unfold in_test_code in *. simpl.
        now rewrite Ht.
    + destruct (IH d) as (renamed & Hr & E).
      exists (m :: renamed). split.
      * constructor; [|exact Hr]. repeat split. congruence.
      * simpl. unfold add_test_method at 2. now rewrite Ht.
Qed.

(** ** Further properties: [collect_eval_data] and [collect_projects] *)

Module EvalFacts.
Import Dict DictFacts.

Lemma find_app (A : Type) (f : A -> bool) (l1 l2 : list A) :
  List.find f (l1 ++ l2)%list
  = match List.find f l1 with
    | Some x => Some x
    | None => List.find f l2
    end.
Proof.
  induction l1 as [|a l1 IH]; simpl; [reflexivity|].
  destruct (f a); [reflexivity | exact IH].
Qed.

Lemma proj_get_fold (p : string) (pairs : list (string * string)) :
  forall d,
    get p (fold_left add_project pairs d)
    = match last_sha p pairs with
      | Some sh => Some sh
      | None => get p d
      end.
Proof.
  unfold last_sha. induction pairs as [|[k v] pairs IH]; intros d; [reflexivity|].
  simpl fold_left. rewrite IH. simpl rev. rewrite find_app.
  destruct (List.find (fun ps => String.eqb p (fst ps)) (rev pairs)); [reflexivity|].
  unfold add_project. simpl. destruct (String.eqb p k) eqn:E.
  - apply String.eqb_eq in E. subst k. simpl. apply get_set_same.
  - simpl. now apply get_set_other.
Qed.

Lemma proj_keys_fold (pairs : list (string * string)) :
  forall d, NoDup (keys d) -> NoDup (keys (fold_left add_project pairs d)).
Proof.
  induction pairs as [|ps pairs IH]; intros d H; [exact H|].
  simpl. apply IH. now apply NoDup_keys_set.
Qed.

Lemma fold_distinct (pairs : list (string * string)) :
  forall d, NoDup (keys d ++ map fst pairs)%list ->
            fold_left add_project pairs d = (d ++ pairs)%list.
Proof.
  induction pairs as [|[k v] pairs IH]; intros d H; simpl.
  - now rewrite app_nil_r.
  - assert (Hk : ~ In k (keys d)).
    { intros Hin. apply NoDup_remove_2 in H. apply H, in_or_app. now left. }
    unfold add_project at 2. simpl. rewrite (@set_new _ k v d Hk), IH.
    + now rewrite <- app_assoc.
    + unfold keys in *. rewrite map_app. simpl. now rewrite <- app_assoc.
Qed.

Lemma map_fst_combine (projects shas : list string) :
  (List.length projects <= List.length shas)%nat ->
  map fst (combine projects shas) = projects.
Proof.
  revert shas. induction projects as [|p ps IH]; intros [|s ss] H; simpl in *;
    try reflexivity; try lia.
  f_equal. apply IH. lia.
Qed.

Lemma firstn_length_min (A : Type) (n : nat) (l : list A) :
  firstn (Nat.min n (List.length l)) l = firstn n l.
Proof.
  destruct (Nat.le_ge_cases n (List.length l)) as [H | H].
  - now rewrite Nat.min_l.
  - rewrite Nat.min_r by exact H. now rewrite firstn_all, firstn_all2.
Qed.

Lemma take_length (n : nat) (s : string) :
  String.length (Str.take n s) = Nat.min n (String.length s).
Proof.
  revert s. induction n as [|n IH]; intros [|c s]; simpl; try reflexivity.
  now rewrite IH.
Qed.

Lemma str_upto_git (base : string) :
  Py.str_upto (base ++ ".git") (- Z.of_nat (String.length ".git"))%Z = base.
Proof.
  unfold Py.str_upto, Py.slice_bound. rewrite length_append. simpl String.length.
  replace (Z.to_nat _) with (String.length base).
  - apply take_app.
  - destruct (Z.ltb_spec (- Z.of_nat 4) 0); lia.
Qed.

End EvalFacts.

(** X8: the table that [collect_eval_data] hands on gives for a project the
    sha of the last pair of [zip(projects, shas)] that names it, and nothing
    for a project that no pair names (so nothing for a project beyond the
    number of shas, unless it is named earlier); no project is listed twice. *)
Theorem proj_dict_last_sha :
  forall projects shas,
    (forall p, Dict.get p (proj_dict projects shas) = last_sha p (combine projects shas)) /\
    NoDup (Dict.keys (proj_dict projects shas)).
Proof.
  intros projects shas. unfold proj_dict. split.
  - intros p.
    rewrite EvalFacts.proj_get_fold. now destruct (last_sha p (combine projects shas)).
  - apply EvalFacts.proj_keys_fold. constructor.
Qed.

(** X9: for projects that are all different and have a sha each, the table
    of [collect_eval_data] is the list of the pairs, in the order given. *)
Theorem proj_dict_distinct :
  forall projects shas,
    NoDup projects -> (List.length projects <= List.length shas)%nat ->
    proj_dict projects shas = combine projects shas.
Proof.
  intros projects shas Hnd Hlen. unfold proj_dict.
  rewrite EvalFacts.fold_distinct; [reflexivity|].
  simpl. now rewrite EvalFacts.map_fst_combine.
Qed.

Lemma proj_dict_distinct_witness :
  proj_dict ["apache_commons-io"; "google_guava"] ["0a1b2c3"; "4d5e6f7"; "89abcde"]
  = combine ["apache_commons-io"; "google_guava"] ["0a1b2c3"; "4d5e6f7"; "89abcde"].
Proof.
  apply (@proj_dict_distinct ["apache_commons-io"; "google_guava"]
           ["0a1b2c3"; "4d5e6f7"; "89abcde"]).
  - repeat constructor; simpl; intuition discriminate.
  - simpl. lia.
Defined.

(** X10: [collect_projects] goes through all URLs when [beg] and [cnt] are
    left out; for [beg >= 0] and [cnt >= 0] it goes through the [cnt] URLs
    from position [beg] on, as far as there are any, and through none when
    [beg] is beyond the end: no bound is an error. *)
Theorem project_urls_window_range :
  forall project_urls,
    project_urls_window project_urls None None = project_urls /\
    (forall beg cnt,
       (0 <= beg)%Z -> (0 <= cnt)%Z ->
       project_urls_window project_urls (Some beg) (Some cnt)
       = firstn (Z.to_nat cnt) (skipn (Z.to_nat beg) project_urls)) /\
    (forall beg cnt,
       (Z.of_nat (List.length project_urls) <= beg)%Z -> (0 <= cnt)%Z ->
       project_urls_window project_urls (Some beg) (Some cnt) = []).
Proof.
  intros l.
  assert (R : forall beg cnt,
             (0 <= beg)%Z -> (0 <= cnt)%Z ->
             project_urls_window l (Some beg) (Some cnt)
             = firstn (Z.to_nat cnt) (skipn (Z.to_nat beg) l)).
  { intros beg cnt Hb Hc. unfold project_urls_window, Py.slice, Py.slice_bound.
    destruct (Z.ltb_spec beg 0); [lia|]. destruct (Z.ltb_spec (beg + cnt) 0); [lia|].
    destruct (Z.le_gt_cases (Z.of_nat (List.length l)) beg) as [Hge | Hlt].
    - rewrite (skipn_all2 (n := Z.to_nat beg)) by lia.
      rewrite (Z.min_r beg) by lia. rewrite Nat2Z.id, skipn_all.
      now rewrite !firstn_nil.
    - rewrite (Z.min_l beg) by lia.
      rewrite <- (EvalFacts.firstn_length_min (Z.to_nat cnt)). f_equal.
      rewrite length_skipn. lia. }
  split; [|split; [exact R|]].
  - change (project_urls_window l None None)
      with (project_urls_window l (Some 0%Z) (Some (Z.of_nat (List.length l)))).
    rewrite R by lia. rewrite Nat2Z.id. apply firstn_all.
  - intros beg cnt Hb Hc. rewrite R by lia.
    rewrite skipn_all2 by lia. apply firstn_nil.
Qed.

Lemma project_urls_window_range_witness :
  project_urls_window ["u0"; "u1"; "u2"; "u3"; "u4"] (Some 3%Z) (Some 10%Z)
  = firstn (Z.to_nat 10) (skipn (Z.to_nat 3) ["u0"; "u1"; "u2"; "u3"; "u4"]) /\
  project_urls_window ["u0"; "u1"; "u2"; "u3"; "u4"] (Some 7%Z) (Some 2%Z) = [].
Proof.
  split.
  - apply (proj1 (proj2 (project_urls_window_range ["u0"; "u1"; "u2"; "u3"; "u4"]))
             3%Z 10%Z); lia.
  - apply (proj2 (proj2 (project_urls_window_range ["u0"; "u1"; "u2"; "u3"; "u4"]))
             7%Z 2%Z); simpl; lia.
Defined.

(** X11: for a URL that [parse_github_url] accepts, with user [u] and repo
    [r], the address of the build descriptor that [collect_projects] asks
    for is the one of the repository, ".../u/r/blob/master/pom.xml", exactly
    when the URL is in the form with ".git" at the end; in the form without
    it, the last four characters of the URL are cut off all the same. *)
Theorem pom_xml_url_needs_git_suffix :
  forall url u r,
    parse_github_url url = Some (Some u, Some r) ->
    (pom_xml_url url = "https://github.com/" ++ u ++ "/" ++ r ++ "/blob/master/pom.xml" <->
     url = "https://github.com/" ++ u ++ "/" ++ r ++ ".git").
Proof.
  intros url u r H.
  destruct (UrlFacts.parse_total url) as [[N _] | (u' & r' & E & Hs & _)]; [congruence|].
  rewrite E in H. injection H as <- <-.
  assert (G : pom_xml_url ("https://github.com/" ++ u' ++ "/" ++ r' ++ ".git")
              = "https://github.com/" ++ u' ++ "/" ++ r' ++ "/blob/master/pom.xml").
  { unfold pom_xml_url.
    replace ("https://github.com/" ++ u' ++ "/" ++ r' ++ ".git")
      with (("https://github.com/" ++ u' ++ "/" ++ r') ++ ".git")
      by now rewrite !append_assoc.
    rewrite EvalFacts.str_upto_git. now rewrite !append_assoc. }
  split.
  - intros P. destruct Hs as [-> | ->]; [exfalso | reflexivity].
    apply (f_equal String.length) in P.
    unfold pom_xml_url, Py.str_upto, Py.slice_bound in P.
    rewrite !length_append, EvalFacts.take_length, !length_append in P.
    simpl String.length in P.
    destruct (Z.ltb_spec (- Z.of_nat 4) 0); lia.
  - intros ->. exact G.
Qed.

Lemma pom_xml_url_needs_git_suffix_witness :
  pom_xml_url "https://github.com/apache/commons-io.git"
  = "https://github.com/" ++ "apache" ++ "/" ++ "commons-io" ++ "/blob/master/pom.xml" <->
  "https://github.com/apache/commons-io.git"
  = "https://github.com/" ++ "apache" ++ "/" ++ "commons-io" ++ ".git".
Proof.
  apply (@pom_xml_url_needs_git_suffix "https://github.com/apache/commons-io.git"
           "apache" "commons-io").
  reflexivity.
Defined.

(** ** Further properties: what counts as test code, and the gate again *)

Module ContainsFacts.
Import Py.

Lemma startswith_iff (p s : string) :
  startswith p s = true <-> exists b, s = p ++ b.
Proof.
  unfold startswith. split.
  - destruct (Str.strip_prefix p s) as [b|] eqn:E; [|discriminate].
    intros _. exists b. now apply strip_prefix_Some.
  - intros (b & ->). now rewrite strip_prefix_app.
Qed.

(** [needle in s] holds exactly when [s] has [needle] somewhere in it. *)
Lemma contains_iff (needle s : string) :
  contains needle s = true <-> exists a b, s = a ++ needle ++ b.
Proof.
  split.
  - induction s as [|c s IH]; simpl; rewrite orb_true_iff.
    + intros [H | H]; [|discriminate].
      apply startswith_iff in H as (b & ->). now exists "", b.
    + intros [H | H].
      * apply startswith_iff in H as (b & ->). now exists "", b.
      * destruct (IH H) as (a & b & ->). now exists (String c a), b.
  - intros (a & b & ->). induction a as [|c a IH].
    + assert (H : startswith needle (needle ++ b) = true)
        by (apply startswith_iff; now exists b).
      change ("" ++ needle ++ b) with (needle ++ b).
      destruct (needle ++ b); simpl; now rewrite H.
    + simpl. rewrite IH. apply orb_true_r.
Qed.

End ContainsFacts.

(** X12: a method counts as test code exactly when "src/test" or
    "Test.java" stands somewhere in its path, at any place and whatever is
    around it: the test is on the text of the path, not on its directories
    or on the end of the file name. *)
Theorem in_test_code_by_substring :
  forall m,
    in_test_code m = true <->
    (exists a b, m_path m = a ++ "src/test" ++ b) \/
    (exists a b, m_path m = a ++ "Test.java" ++ b).
Proof.
  intros m. unfold in_test_code.
  now rewrite orb_true_iff, !ContainsFacts.contains_iff.
Qed.

Lemma in_test_code_by_substring_witness :
  in_test_code (MethodData "lib/src/testing/Main.java" 7 "Main") = true.
Proof.
  apply (proj2 (in_test_code_by_substring
                  (MethodData "lib/src/testing/Main.java" 7 "Main"))).
  left. now exists "lib/", "ing/Main.java".
Defined.

(** X13: with the table of the class, [check_junit] returns false exactly
    when the document parses and either every dependency is passed over,
    or the first one named junit has a version whose part in front of the
    first dot is read by [int] as a number other than 4. *)
Theorem check_junit_fails_exactly :
  forall (parse : string -> result Element) pom_file,
    check_junit parse DataCollector pom_file = Ok false <->
    exists root,
      parse pom_file = Ok root /\
      (Forall (passed_over DataCollector) (findall root (xmlns "dependency")) \/
       exists pre d post v t n,
         findall root (xmlns "dependency") = (pre ++ d :: post)%list /\
         Forall (passed_over DataCollector) pre /\
         selected DataCollector d "junit" junit_requirement /\
         has_version d v /\ before_first_dot v t /\
         Int.int t = Ok n /\ n <> 4%Z).
Proof.
  intros parse pom_file. unfold check_junit.
  destruct (parse pom_file) as [root|e] eqn:Hroot; simpl.
  - rewrite MoreFacts.for_d_in_returns. split.
    + intros [[_ H] | (pre & d & post & a & p & v & t & Hl & Hpre & Hs & Hv & Hb & Hp)].
      * exists root. split; [reflexivity | now left].
      * assert (K := Hs). destruct K as (art & _ & _ & K).
        apply junit_is_the_key in K as [-> ->].
        unfold junit_requirement in Hp. destruct (Int.int t) as [n|e] eqn:Hi; [|discriminate].
        simpl in Hp. injection Hp as Hp. apply Z.eqb_neq in Hp.
        exists root. split; [reflexivity|]. right. exists pre, d, post, v, t, n.
        exact (conj Hl (conj Hpre (conj Hs (conj Hv (conj Hb (conj Hi Hp)))))).
    + intros (root' & [= <-] & [H | (pre & d & post & v & t & n & Hl & Hpre & Hs & Hv & Hb & Hi & Hn)]).
      * left. now split.
      * right. exists pre, d, post, "junit", junit_requirement, v, t.
        refine (conj Hl (conj Hpre (conj Hs (conj Hv (conj Hb _))))).
        unfold junit_requirement. rewrite Hi. simpl.
        apply Z.eqb_neq in Hn. now rewrite Hn.
  - split; [discriminate|]. intros (root & H & _). discriminate.
Qed.

Lemma check_junit_fails_exactly_witness :
  check_junit (only_file (pom [dependency "guava" "31.1-jre"; dependency "junit" "3.8.2"]))
    DataCollector "pom.xml" = Ok false.
Proof.
  apply (proj2 (check_junit_fails_exactly
                  (only_file (pom [dependency "guava" "31.1-jre";
                                   dependency "junit" "3.8.2"])) "pom.xml")).
  eexists. split; [reflexivity|]. right.
  exists [dependency "guava" "31.1-jre"], (dependency "junit" "3.8.2"), [], "3.8.2", "3", 3%Z.
  repeat split; try reflexivity.
  - repeat constructor. eexists. split; reflexivity.
  - eexists. repeat split; reflexivity.
  - eexists. split; reflexivity.
  - right. now exists "8.2".
  - discriminate.
Defined.

(** X14: whatever [parse_github_url] returns as user and repo, the user is
    not empty and has no slash in it, and the repo is not empty and has no
    line feed in it. *)
Theorem parse_github_url_groups :
  forall url u r,
    parse_github_url url = Some (Some u, Some r) ->
    u <> "" /\ free_of "/" u = true /\ r <> "" /\ free_of Re.LF r = true.
Proof.
  intros url u r H.
  destruct (UrlFacts.parse_total url)
    as [[N _] | (u' & r' & E & _ & Hu & Fu & Hr & Fr)]; [congruence|].
  rewrite E in H. injection H as <- <-. auto.
Qed.

Lemma parse_github_url_groups_witness :
  "foo" <> "" /\ free_of "/" "foo" = true /\
  "bar/extra" <> "" /\ free_of Re.LF "bar/extra" = true.
Proof.
  apply (@parse_github_url_groups "https://github.com/foo/bar/extra" "foo" "bar/extra").
  reflexivity.
Defined.

(** X15: two URLs that [parse_github_url] takes to the same user and repo
    are the same URL, or one is the other with ".git" behind it. *)
Theorem parse_github_url_same_pair :
  forall url1 url2 u r,
    parse_github_url url1 = Some (Some u, Some r) ->
    parse_github_url url2 = Some (Some u, Some r) ->
    url1 = url2 \/ url1 = url2 ++ ".git" \/ url2 = url1 ++ ".git".
Proof.
  intros url1 url2 u r H1 H2.
  destruct (UrlFacts.parse_total url1) as [[N _] | (u1 & r1 & E1 & S1 & _)]; [congruence|].
  destruct (UrlFacts.parse_total url2) as [[N _] | (u2 & r2 & E2 & S2 & _)]; [congruence|].
  rewrite E1 in H1. injection H1 as -> ->. rewrite E2 in H2. injection H2 as -> ->.
  destruct S1 as [-> | ->], S2 as [-> | ->]; auto.
  - right; right. now rewrite !append_assoc.
  - right; left. now rewrite !append_assoc.
Qed.

Lemma parse_github_url_same_pair_witness :
  "https://github.com/foo/bar.git" = "https://github.com/foo/bar" \/
  "https://github.com/foo/bar.git" = "https://github.com/foo/bar" ++ ".git" \/
  "https://github.com/foo/bar" = "https://github.com/foo/bar.git" ++ ".git".
Proof.
  apply (@parse_github_url_same_pair "https://github.com/foo/bar.git"
           "https://github.com/foo/bar" "foo" "bar"); reflexivity.
Defined.
